(** * libi2clcd: HD44780 character LCD behind a PCF8574 I2C expander

    Shallow embedding of [src/i2clcd.c] (with the constants of [hd44780.h]
    and [i2clcd_internal.h] and the types of [i2clcd.h]) and the properties
    of its wire protocol and session state.

    Modelling conventions.
    - [uint8_t], [int] and [unsigned int] values are integers in [Z]; a
      conversion to [uint8_t] is written [u8], the 32-bit wrap of
      [unsigned int] arithmetic is written [u32].
    - The I2C bus is the only observable effect.  A run is a list of
      [event]s in chronological order: every [write(2)] call of one byte and
      every delay.  Whether the next [write(2)] succeeds is decided by the
      environment, a function [bus_write] of the history so far and of the
      byte being written.
    - A C function with effects is a computation [M A]: it maps the history
      to a result and the extended history, or to [None] where the C program
      has undefined behaviour (an array read out of bounds).
    - A handle [i2clcd_t *] is an [option i2clcd_ctx]: [None] is the null
      pointer, [Some ctx] points to a session whose fields are [ctx].  A
      public operation returns its error code together with the session as
      it is left behind the pointer. *)

From Stdlib Require Import ZArith List Bool Lia String Ascii.
Import ListNotations.
Local Open Scope Z_scope.

(** ** Fixed-width integers *)

Definition u8 (z : Z) : Z := z mod 256.
Definition u32 (z : Z) : Z := z mod 4294967296.

(** ** hd44780.h *)

Module HD44780.
Definition CMD_CLEAR : Z := 0x01.
Definition CMD_HOME : Z := 0x02.
Definition CMD_ENTRY_MODE : Z := 0x04.
Definition CMD_DISPLAY_CTRL : Z := 0x08.
Definition CMD_SHIFT : Z := 0x10.
Definition CMD_FUNCTION_SET : Z := 0x20.
Definition CMD_SET_CGRAM : Z := 0x40.
Definition CMD_SET_DDRAM : Z := 0x80.

Definition ENTRY_INC : Z := 0x02.
Definition ENTRY_SHIFT : Z := 0x01.

Definition DISPLAY_ON : Z := 0x04.
Definition CURSOR_ON : Z := 0x02.
Definition BLINK_ON : Z := 0x01.

Definition MODE_8BIT : Z := 0x10.
Definition MODE_4BIT : Z := 0x00.
Definition LINES_2 : Z := 0x08.
Definition LINES_1 : Z := 0x00.
Definition DOTS_5X10 : Z := 0x04.
Definition DOTS_5X8 : Z := 0x00.

Definition LINE0_ADDR : Z := 0x00.
Definition LINE1_ADDR : Z := 0x40.
Definition LINE2_ADDR : Z := 0x14.
Definition LINE3_ADDR : Z := 0x54.

Definition DELAY_CLEAR_US : Z := 1600.
Definition DELAY_CMD_US : Z := 50.
Definition DELAY_ENABLE_US : Z := 1.
Definition DELAY_INIT_MS : Z := 50.
End HD44780.

(** ** i2clcd_internal.h: PCF8574 pin mapping *)

Module PCF8574.
Definition PIN_RS : Z := Z.shiftl 1 0.
Definition PIN_RW : Z := Z.shiftl 1 1.
Definition PIN_EN : Z := Z.shiftl 1 2.
Definition PIN_BL : Z := Z.shiftl 1 3.
Definition DATA_MASK : Z := 0xF0.
End PCF8574.

(** ** i2clcd.h: error codes, size presets, configuration *)

Inductive i2clcd_err_t : Set :=
| I2CLCD_OK
| I2CLCD_ERR_OPEN
| I2CLCD_ERR_IOCTL
| I2CLCD_ERR_WRITE
| I2CLCD_ERR_INVALID_ARG
| I2CLCD_ERR_NOT_INIT
| I2CLCD_ERR_RANGE.

Definition err_code (e : i2clcd_err_t) : Z :=
  match e with
  | I2CLCD_OK => 0
  | I2CLCD_ERR_OPEN => -1
  | I2CLCD_ERR_IOCTL => -2
  | I2CLCD_ERR_WRITE => -3
  | I2CLCD_ERR_INVALID_ARG => -4
  | I2CLCD_ERR_NOT_INIT => -5
  | I2CLCD_ERR_RANGE => -6
  end.

Definition err_is_ok (e : i2clcd_err_t) : bool :=
  match e with I2CLCD_OK => true | _ => false end.

(** The enumerators of [i2clcd_size_t]; the field itself is a C integer
    and may hold any value, which the [default:] branch of [i2clcd_open]
    rejects. *)
Definition I2CLCD_16X2 : Z := 0.
Definition I2CLCD_20X4 : Z := 1.
Definition I2CLCD_CUSTOM : Z := 2.

Record i2clcd_config_t : Set := mkConfig {
  cfg_i2c_device : string;
  cfg_i2c_addr : Z;
  cfg_size : Z;
  cfg_cols : Z;
  cfg_rows : Z;
  cfg_backlight : bool
}.

(** ** struct i2clcd_ctx *)

Record i2clcd_ctx : Set := mkCtx {
  fd : Z;
  i2c_addr : Z;
  cols : Z;
  rows : Z;
  display_ctrl : Z;
  entry_mode : Z;
  backlight : bool;
  line_addr : list Z
}.

Definition set_display_ctrl (ctx : i2clcd_ctx) (v : Z) : i2clcd_ctx :=
  mkCtx (fd ctx) (i2c_addr ctx) (cols ctx) (rows ctx) v (entry_mode ctx)
        (backlight ctx) (line_addr ctx).

Definition set_entry_mode (ctx : i2clcd_ctx) (v : Z) : i2clcd_ctx :=
  mkCtx (fd ctx) (i2c_addr ctx) (cols ctx) (rows ctx) (display_ctrl ctx) v
        (backlight ctx) (line_addr ctx).

Definition set_backlight (ctx : i2clcd_ctx) (v : bool) : i2clcd_ctx :=
  mkCtx (fd ctx) (i2c_addr ctx) (cols ctx) (rows ctx) (display_ctrl ctx)
        (entry_mode ctx) v (line_addr ctx).

(** ** Bus events and the effect monad *)

Inductive event : Set :=
| EvWrite (byte : Z)
| EvDelay (us : Z).

Definition history := list event.

(** The bytes put on the bus by a run, in order. *)
Fixpoint writes (h : history) : list Z :=
  match h with
  | [] => []
  | EvWrite b :: h' => b :: writes h'
  | EvDelay _ :: h' => writes h'
  end.

Definition M (A : Type) : Type := history -> option (A * history).

Definition ret {A} (a : A) : M A := fun h => Some (a, h).

Definition bind {A B} (m : M A) (k : A -> M B) : M B :=
  fun h => match m h with
           | Some (a, h') => k a h'
           | None => None
           end.

(** Undefined behaviour of the C program. *)
Definition undefined {A} : M A := fun _ => None.

Definition emit (e : event) : M unit := fun h => Some (tt, h ++ [e]).

Declare Scope lcd_scope.
Delimit Scope lcd_scope with lcd.
Notation "x <- m ;; k" := (bind m (fun x => k))
  (at level 61, m at next level, right associativity) : lcd_scope.
Notation "' pat <- m ;; k" := (bind m (fun x => match x with pat => k end))
  (at level 61, pat pattern, m at next level, right associativity) : lcd_scope.
Notation "m ;;; k" := (bind m (fun _ => k))
  (at level 61, right associativity) : lcd_scope.
Local Open Scope lcd_scope.

(** The C string behind a [const char *]: the bytes in memory up to the
    first NUL.  [str] holds the bytes; a NUL inside it ends the C string. *)
Definition char_code (c : ascii) : Z := Z.of_N (N_of_ascii c).

Fixpoint strlen (s : string) : nat :=
  match s with
  | EmptyString => 0%nat
  | String c s' => if (char_code c =? 0) then 0%nat else S (strlen s')
  end.

Fixpoint char_at (s : string) (i : nat) : ascii :=
  match s, i with
  | EmptyString, _ => zero
  | String c _, O => c
  | String _ s', S i' => char_at s' i'
  end.

Fixpoint string_prefix (n : nat) (s : string) : string :=
  match n, s with
  | O, _ => EmptyString
  | S _, EmptyString => EmptyString
  | S n', String c s' => String c (string_prefix n' s')
  end.

Section Driver.

(** The environment: does [write(fd, &byte, 1)] return 1, given what
    happened on the bus so far? *)
Variable bus_write : history -> Z -> bool.

(** The rest of the environment of [i2clcd_open]: whether [calloc]
    returns memory, the descriptor [open(2)] returns for a device path,
    and the result of [ioctl(fd, I2C_SLAVE, addr)]. *)
Variable sys_calloc : bool.
Variable sys_open : string -> Z.
Variable sys_ioctl : Z -> Z -> Z.

(** *** Timing functions *)

Definition i2clcd_delay_us (us : Z) : M unit := emit (EvDelay us).

Definition i2clcd_delay_ms (ms : Z) : M unit :=
  i2clcd_delay_us (u32 (ms * 1000)).

(** *** Low-level I2C functions *)

Definition i2clcd_i2c_write_byte (ctx : i2clcd_ctx) (byte : Z) : M Z :=
  fun h =>
    let ok := bus_write h byte in
    Some (if ok then 0 else -1, h ++ [EvWrite byte]).

(** *** LCD write functions (4-bit mode) *)

Definition i2clcd_write_nibble (ctx : i2clcd_ctx) (nibble : Z) (rs : bool)
  : M Z :=
  let data := Z.land nibble PCF8574.DATA_MASK in
  let data := if rs then Z.lor data PCF8574.PIN_RS else data in
  let data := if backlight ctx then Z.lor data PCF8574.PIN_BL else data in
  r <- i2clcd_i2c_write_byte ctx (Z.lor data PCF8574.PIN_EN) ;;
  if r <? 0 then ret r else
  i2clcd_delay_us HD44780.DELAY_ENABLE_US ;;;
  r <- i2clcd_i2c_write_byte ctx data ;;
  if r <? 0 then ret r else
  i2clcd_delay_us HD44780.DELAY_CMD_US ;;;
  ret 0.

Definition i2clcd_write_byte (ctx : i2clcd_ctx) (byte : Z) (rs : bool)
  : M Z :=
  r <- i2clcd_write_nibble ctx (Z.land byte 0xF0) rs ;;
  if r <? 0 then ret r else
  i2clcd_write_nibble ctx (Z.land (Z.shiftl byte 4) 0xF0) rs.

Definition i2clcd_command (ctx : i2clcd_ctx) (cmd : Z) : M Z :=
  i2clcd_write_byte ctx cmd false.

Definition i2clcd_data (ctx : i2clcd_ctx) (data : Z) : M Z :=
  i2clcd_write_byte ctx data true.

Definition i2clcd_update_display_ctrl (ctx : i2clcd_ctx) : M Z :=
  i2clcd_command ctx (u8 (Z.lor HD44780.CMD_DISPLAY_CTRL (display_ctrl ctx))).

(** *** Initialization *)

Definition api : Type := M (i2clcd_err_t * option i2clcd_ctx).

(** [handle] tells whether the out-pointer is non-null; the second
    component of the result is what the call stored through it. *)
Definition i2clcd_open (config : option i2clcd_config_t) (handle : bool)
  : i2clcd_err_t * option i2clcd_ctx :=
  match config, handle with
  | None, _ | _, false => (I2CLCD_ERR_INVALID_ARG, None)
  | Some config, true =>
    if negb sys_calloc then (I2CLCD_ERR_OPEN, None) else
    let dims :=
      if cfg_size config =? I2CLCD_16X2 then Some (16, 2)
      else if cfg_size config =? I2CLCD_20X4 then Some (20, 4)
      else if cfg_size config =? I2CLCD_CUSTOM
           then Some (cfg_cols config, cfg_rows config)
      else None in
    match dims with
    | None => (I2CLCD_ERR_INVALID_ARG, None)
    | Some (c, r) =>
      let table := [HD44780.LINE0_ADDR; HD44780.LINE1_ADDR;
                    HD44780.LINE2_ADDR; HD44780.LINE3_ADDR] in
      let f := sys_open (cfg_i2c_device config) in
      if f <? 0 then (I2CLCD_ERR_OPEN, None) else
      if sys_ioctl f (cfg_i2c_addr config) <? 0
      then (I2CLCD_ERR_IOCTL, None) else
      (I2CLCD_OK,
       Some (mkCtx f (cfg_i2c_addr config) c r HD44780.DISPLAY_ON
                   HD44780.ENTRY_INC (cfg_backlight config) table))
    end
  end.

Definition i2clcd_init (config : option i2clcd_config_t) (handle : bool)
  : api :=
  let '(err, h) := i2clcd_open config handle in
  if negb (err_is_ok err) then ret (err, h) else
  match h with
  | None => undefined
  | Some ctx =>
    i2clcd_delay_ms HD44780.DELAY_INIT_MS ;;;
    _ <- i2clcd_i2c_write_byte ctx
           (if backlight ctx then PCF8574.PIN_BL else 0) ;;
    i2clcd_delay_ms 1 ;;;
    _ <- i2clcd_write_nibble ctx 0x30 false ;;
    i2clcd_delay_ms 5 ;;;
    _ <- i2clcd_write_nibble ctx 0x30 false ;;
    i2clcd_delay_us 150 ;;;
    _ <- i2clcd_write_nibble ctx 0x30 false ;;
    i2clcd_delay_us 150 ;;;
    _ <- i2clcd_write_nibble ctx 0x20 false ;;
    i2clcd_delay_us HD44780.DELAY_CMD_US ;;;
    _ <- i2clcd_command ctx
           (Z.lor (Z.lor (Z.lor HD44780.CMD_FUNCTION_SET HD44780.MODE_4BIT)
                         HD44780.LINES_2) HD44780.DOTS_5X8) ;;
    let ctx := set_display_ctrl ctx 0 in
    _ <- i2clcd_command ctx HD44780.CMD_DISPLAY_CTRL ;;
    let ctx := set_entry_mode ctx HD44780.ENTRY_INC in
    _ <- i2clcd_command ctx
           (u8 (Z.lor HD44780.CMD_ENTRY_MODE (entry_mode ctx))) ;;
    let ctx := set_display_ctrl ctx HD44780.DISPLAY_ON in
    _ <- i2clcd_command ctx
           (u8 (Z.lor HD44780.CMD_DISPLAY_CTRL (display_ctrl ctx))) ;;
    ret (I2CLCD_OK, Some ctx)
  end.

(** *** Display control *)

Definition i2clcd_clear (handle : option i2clcd_ctx) : api :=
  match handle with
  | None => ret (I2CLCD_ERR_NOT_INIT, handle)
  | Some ctx =>
    r <- i2clcd_command ctx HD44780.CMD_CLEAR ;;
    if r <? 0 then ret (I2CLCD_ERR_WRITE, handle) else
    i2clcd_delay_us HD44780.DELAY_CLEAR_US ;;;
    ret (I2CLCD_OK, handle)
  end.

Definition i2clcd_home (handle : option i2clcd_ctx) : api :=
  match handle with
  | None => ret (I2CLCD_ERR_NOT_INIT, handle)
  | Some ctx =>
    r <- i2clcd_command ctx HD44780.CMD_HOME ;;
    if r <? 0 then ret (I2CLCD_ERR_WRITE, handle) else
    i2clcd_delay_us HD44780.DELAY_CLEAR_US ;;;
    ret (I2CLCD_OK, handle)
  end.

(** The shared tail of the three toggles: the flag byte has been stored,
    now the register is re-sent. *)
Definition send_display_ctrl (ctx : i2clcd_ctx) : api :=
  r <- i2clcd_update_display_ctrl ctx ;;
  if r <? 0 then ret (I2CLCD_ERR_WRITE, Some ctx)
  else ret (I2CLCD_OK, Some ctx).

(** [handle->display_ctrl |= flag] or [handle->display_ctrl &= ~flag]. *)
Definition toggle_flag (ctx : i2clcd_ctx) (flag : Z) (on : bool)
  : i2clcd_ctx :=
  if on
  then set_display_ctrl ctx (u8 (Z.lor (display_ctrl ctx) flag))
  else set_display_ctrl ctx (u8 (Z.land (display_ctrl ctx) (Z.lnot flag))).

Definition i2clcd_display (handle : option i2clcd_ctx) (on : bool) : api :=
  match handle with
  | None => ret (I2CLCD_ERR_NOT_INIT, handle)
  | Some ctx => send_display_ctrl (toggle_flag ctx HD44780.DISPLAY_ON on)
  end.

(** *** Cursor control *)

Definition i2clcd_set_cursor (handle : option i2clcd_ctx) (col row : Z)
  : api :=
  match handle with
  | None => ret (I2CLCD_ERR_NOT_INIT, handle)
  | Some ctx =>
    if (row >=? rows ctx) || (col >=? cols ctx)
    then ret (I2CLCD_ERR_RANGE, handle) else
    match nth_error (line_addr ctx) (Z.to_nat row) with
    | None => undefined
    | Some base =>
      let addr := u8 (base + col) in
      r <- i2clcd_command ctx (u8 (Z.lor HD44780.CMD_SET_DDRAM addr)) ;;
      if r <? 0 then ret (I2CLCD_ERR_WRITE, handle)
      else ret (I2CLCD_OK, handle)
    end
  end.

Definition i2clcd_cursor (handle : option i2clcd_ctx) (visible : bool)
  : api :=
  match handle with
  | None => ret (I2CLCD_ERR_NOT_INIT, handle)
  | Some ctx => send_display_ctrl (toggle_flag ctx HD44780.CURSOR_ON visible)
  end.

Definition i2clcd_blink (handle : option i2clcd_ctx) (blink : bool) : api :=
  match handle with
  | None => ret (I2CLCD_ERR_NOT_INIT, handle)
  | Some ctx => send_display_ctrl (toggle_flag ctx HD44780.BLINK_ON blink)
  end.

(** The loop of [i2clcd_clear_line]; [n] iterations remain. *)
Fixpoint clear_line_loop (ctx : i2clcd_ctx) (n : nat) : M i2clcd_err_t :=
  match n with
  | O => ret I2CLCD_OK
  | S n' =>
    r <- i2clcd_data ctx (char_code " "%char) ;;
    if r <? 0 then ret I2CLCD_ERR_WRITE else clear_line_loop ctx n'
  end.

Definition i2clcd_clear_line (handle : option i2clcd_ctx) (line : Z) : api :=
  match handle with
  | None => ret (I2CLCD_ERR_NOT_INIT, handle)
  | Some ctx =>
    if line >=? rows ctx then ret (I2CLCD_ERR_RANGE, handle) else
    '(e, _) <- i2clcd_set_cursor handle 0 line ;;
    if negb (err_is_ok e) then ret (e, handle) else
    e <- clear_line_loop ctx (Z.to_nat (cols ctx)) ;;
    ret (e, handle)
  end.

(** *** Writing text *)

Definition i2clcd_putc (handle : option i2clcd_ctx) (c : ascii) : api :=
  match handle with
  | None => ret (I2CLCD_ERR_NOT_INIT, handle)
  | Some ctx =>
    r <- i2clcd_data ctx (char_code c) ;;
    if r <? 0 then ret (I2CLCD_ERR_WRITE, handle)
    else ret (I2CLCD_OK, handle)
  end.

(** The loop of [i2clcd_puts]: the walk ends at the first NUL. *)
Fixpoint puts_loop (ctx : i2clcd_ctx) (str : string) : M i2clcd_err_t :=
  match str with
  | EmptyString => ret I2CLCD_OK
  | String c str' =>
    if char_code c =? 0 then ret I2CLCD_OK else
    r <- i2clcd_data ctx (char_code c) ;;
    if r <? 0 then ret I2CLCD_ERR_WRITE else puts_loop ctx str'
  end.

Definition i2clcd_puts (handle : option i2clcd_ctx) (str : option string)
  : api :=
  match handle with
  | None => ret (I2CLCD_ERR_NOT_INIT, handle)
  | Some ctx =>
    match str with
    | None => ret (I2CLCD_ERR_INVALID_ARG, handle)
    | Some str => e <- puts_loop ctx str ;; ret (e, handle)
    end
  end.

(** [rendered] is the text the format and its arguments expand to;
    [vsnprintf] keeps what fits the 128-byte buffer with its NUL. *)
Definition i2clcd_printf (handle : option i2clcd_ctx) (fmt : option string)
           (rendered : string) : api :=
  match handle with
  | None => ret (I2CLCD_ERR_NOT_INIT, handle)
  | Some ctx =>
    match fmt with
    | None => ret (I2CLCD_ERR_INVALID_ARG, handle)
    | Some _ => i2clcd_puts handle (Some (string_prefix 127 rendered))
    end
  end.

(** The loop of [i2clcd_set_line] at index [i]; [n] iterations remain. *)
Fixpoint set_line_loop (ctx : i2clcd_ctx) (text : string) (len i n : nat)
  : M i2clcd_err_t :=
  match n with
  | O => ret I2CLCD_OK
  | S n' =>
    let c := if (i <? len)%nat then char_at text i else " "%char in
    r <- i2clcd_data ctx (char_code c) ;;
    if r <? 0 then ret I2CLCD_ERR_WRITE
    else set_line_loop ctx text len (S i) n'
  end.

Definition i2clcd_set_line (handle : option i2clcd_ctx) (line : Z)
           (text : option string) : api :=
  match handle with
  | None => ret (I2CLCD_ERR_NOT_INIT, handle)
  | Some ctx =>
    match text with
    | None => ret (I2CLCD_ERR_INVALID_ARG, handle)
    | Some text =>
      if line >=? rows ctx then ret (I2CLCD_ERR_RANGE, handle) else
      '(e, _) <- i2clcd_set_cursor handle 0 line ;;
      if negb (err_is_ok e) then ret (e, handle) else
      let len := strlen text in
      e <- set_line_loop ctx text len 0 (Z.to_nat (cols ctx)) ;;
      ret (e, handle)
    end
  end.

(** *** Backlight control *)

Definition i2clcd_backlight (handle : option i2clcd_ctx) (on : bool) : api :=
  match handle with
  | None => ret (I2CLCD_ERR_NOT_INIT, handle)
  | Some ctx =>
    let ctx := set_backlight ctx on in
    r <- i2clcd_i2c_write_byte ctx (if on then PCF8574.PIN_BL else 0) ;;
    if r <? 0 then ret (I2CLCD_ERR_WRITE, Some ctx)
    else ret (I2CLCD_OK, Some ctx)
  end.

(** [on] tells whether the out-pointer is non-null; the second component
    is the value stored through it. *)
Definition i2clcd_backlight_get (handle : option i2clcd_ctx) (on : bool)
  : i2clcd_err_t * option bool :=
  match handle with
  | None => (I2CLCD_ERR_NOT_INIT, None)
  | Some ctx =>
    if negb on then (I2CLCD_ERR_INVALID_ARG, None)
    else (I2CLCD_OK, Some (backlight ctx))
  end.

(** *** Custom characters (CGRAM) *)

(** The loop of [i2clcd_create_char] at index [i]; [n] iterations
    remain.  Reading past the end of [charmap] is undefined. *)
Fixpoint create_char_loop (ctx : i2clcd_ctx) (charmap : list Z) (i n : nat)
  : M i2clcd_err_t :=
  match n with
  | O => ret I2CLCD_OK
  | S n' =>
    match nth_error charmap i with
    | None => undefined
    | Some row =>
      r <- i2clcd_data ctx row ;;
      if r <? 0 then ret I2CLCD_ERR_WRITE
      else create_char_loop ctx charmap (S i) n'
    end
  end.

Definition i2clcd_create_char (handle : option i2clcd_ctx) (location : Z)
           (charmap : option (list Z)) : api :=
  match handle with
  | None => ret (I2CLCD_ERR_NOT_INIT, handle)
  | Some ctx =>
    match charmap with
    | None => ret (I2CLCD_ERR_INVALID_ARG, handle)
    | Some charmap =>
      if location >? 7 then ret (I2CLCD_ERR_RANGE, handle) else
      r <- i2clcd_command ctx
             (u8 (Z.lor HD44780.CMD_SET_CGRAM (Z.shiftl location 3))) ;;
      if r <? 0 then ret (I2CLCD_ERR_WRITE, handle) else
      e <- create_char_loop ctx charmap 0 8 ;;
      if negb (err_is_ok e) then ret (e, handle) else
      r <- i2clcd_command ctx HD44780.CMD_SET_DDRAM ;;
      if r <? 0 then ret (I2CLCD_ERR_WRITE, handle)
      else ret (I2CLCD_OK, handle)
    end
  end.

(** *** Utility functions *)

(** [want_cols] and [want_rows] tell which out-pointers are non-null. *)
Definition i2clcd_get_size (handle : option i2clcd_ctx)
           (want_cols want_rows : bool)
  : i2clcd_err_t * option Z * option Z :=
  match handle with
  | None => (I2CLCD_ERR_NOT_INIT, None, None)
  | Some ctx =>
    (I2CLCD_OK,
     if want_cols then Some (cols ctx) else None,
     if want_rows then Some (rows ctx) else None)
  end.

(** *** The public operations on a session, as one type

    [i2clcd_deinit] is left out: it releases the session and nothing of it
    remains to observe. *)

Inductive call : Type :=
| Clear
| ClearLine (line : Z)
| Home
| Display (on : bool)
| SetCursor (col row : Z)
| Cursor (visible : bool)
| Blink (blink : bool)
| Putc (c : ascii)
| Puts (str : option string)
| Printf (fmt : option string) (rendered : string)
| SetLine (line : Z) (text : option string)
| Backlight (on : bool)
| BacklightGet (on : bool)
| CreateChar (location : Z) (charmap : option (list Z))
| GetSize (want_cols want_rows : bool).

Definition run (c : call) (handle : option i2clcd_ctx) : api :=
  match c with
  | Clear => i2clcd_clear handle
  | ClearLine line => i2clcd_clear_line handle line
  | Home => i2clcd_home handle
  | Display on => i2clcd_display handle on
  | SetCursor col row => i2clcd_set_cursor handle col row
  | Cursor visible => i2clcd_cursor handle visible
  | Blink blink => i2clcd_blink handle blink
  | Putc c => i2clcd_putc handle c
  | Puts str => i2clcd_puts handle str
  | Printf fmt rendered => i2clcd_printf handle fmt rendered
  | SetLine line text => i2clcd_set_line handle line text
  | Backlight on => i2clcd_backlight handle on
  | BacklightGet on => ret (fst (i2clcd_backlight_get handle on), handle)
  | CreateChar location charmap => i2clcd_create_char handle location charmap
  | GetSize wc wr => ret (fst (fst (i2clcd_get_size handle wc wr)), handle)
  end.

End Driver.


(** ** The wire format, as the protocol describes it

    These definitions are written from the protocol description (bit 0
    register select, bit 1 read/write held low, bit 2 enable, bit 3
    backlight, bits 4 to 7 the data nibble), independently of the driver
    code above; the theorems below compare the two. *)

Definition ctl_bits (rs bl : bool) : Z :=
  Z.lor (if rs then 1 else 0) (if bl then 8 else 0).

(** One nibble on the wire: the word with enable high, the enable pulse
    width, the same word with enable low, the command settle time. *)
Definition nibble_pulse (rs bl : bool) (nibble : Z) : history :=
  [EvWrite (Z.lor (Z.lor nibble (ctl_bits rs bl)) 4); EvDelay 1;
   EvWrite (Z.lor nibble (ctl_bits rs bl)); EvDelay 50].

(** One byte on the wire: high nibble first, then the low nibble moved to
    the high position. *)
Definition byte_frame (rs bl : bool) (b : Z) : history :=
  nibble_pulse rs bl (Z.land b 0xF0) ++
  nibble_pulse rs bl (Z.land (Z.shiftl b 4) 0xF0).

(** The power-on sequence of the HD44780 in 4-bit mode. *)
Definition init_sequence (bl : bool) : history :=
  [EvDelay 50000; EvWrite (if bl then 8 else 0); EvDelay 1000] ++
  nibble_pulse false bl 0x30 ++ [EvDelay 5000] ++
  nibble_pulse false bl 0x30 ++ [EvDelay 150] ++
  nibble_pulse false bl 0x30 ++ [EvDelay 150] ++
  nibble_pulse false bl 0x20 ++ [EvDelay 50] ++
  byte_frame false bl 0x28 ++
  byte_frame false bl 0x08 ++
  byte_frame false bl 0x06 ++
  byte_frame false bl 0x0C.

(** What a line of [columns] cells shows after a set-line of [text]. *)
Definition padded_line (text : string) (columns : nat) : list Z :=
  map (fun i => if (i <? strlen text)%nat then char_code (char_at text i)
                else 32)
      (seq 0 columns).

(** A bus on which every write succeeds. *)
Definition reliable (bus_write : history -> Z -> bool) : Prop :=
  forall h b, bus_write h b = true.

(** Running a sequence of public operations on a session. *)
Fixpoint run_all (bus_write : history -> Z -> bool) (cs : list call)
         (handle : option i2clcd_ctx) : M (option i2clcd_ctx) :=
  match cs with
  | [] => ret handle
  | c :: cs' =>
    '(_, handle') <- run bus_write c handle ;;
    run_all bus_write cs' handle'
  end.

(** Environments used to exercise the driver on concrete inputs. *)
Definition bus_good : history -> Z -> bool := fun _ _ => true.
Definition bus_dead : history -> Z -> bool := fun _ _ => false.
Definition open_fd3 : string -> Z := fun _ => 3.
Definition ioctl_ok : Z -> Z -> Z := fun _ _ => 0.

Definition config_16x2 : i2clcd_config_t :=
  mkConfig "/dev/i2c-1" 0x27 I2CLCD_16X2 0 0 true.
Definition config_20x4 : i2clcd_config_t :=
  mkConfig "/dev/i2c-1" 0x27 I2CLCD_20X4 20 4 true.
Definition config_custom (c r : Z) : i2clcd_config_t :=
  mkConfig "/dev/i2c-1" 0x27 I2CLCD_CUSTOM c r true.

Definition session_16x2 : i2clcd_ctx :=
  mkCtx 3 0x27 16 2 4 2 true [0x00; 0x40; 0x14; 0x54].
Definition session_20x4 : i2clcd_ctx :=
  mkCtx 3 0x27 20 4 4 2 true [0x00; 0x40; 0x14; 0x54].

(** [m] never hits undefined behaviour and its result satisfies [P],
    whatever happened on the bus before. *)
Definition returns {A} (m : M A) (P : A -> Prop) : Prop :=
  forall h, exists a h', m h = Some (a, h') /\ P a.

(** Session [ctx'] is [ctx] with bit [bit] of the display-control flags
    set to [on] and nothing else changed. *)
Definition only_bit_changed (bit : Z) (on : bool) (ctx ctx' : i2clcd_ctx)
  : Prop :=
  Z.testbit (display_ctrl ctx') bit = on /\
  (forall i, 0 <= i < 8 -> i <> bit ->
     Z.testbit (display_ctrl ctx') i = Z.testbit (display_ctrl ctx) i) /\
  ctx' = set_display_ctrl ctx (display_ctrl ctx').

(** Whenever [m] returns, its result satisfies [P]. *)
Definition ensures {A} (m : M A) (P : A -> Prop) : Prop :=
  forall h, match m h with Some (a, _) => P a | None => True end.

(** The session behind the handle still has the base-address table and
    the dimensions of [ctx]. *)
Definition keeps_geometry (ctx : i2clcd_ctx)
           (res : i2clcd_err_t * option i2clcd_ctx) : Prop :=
  exists ctx', snd res = Some ctx' /\
    line_addr ctx' = line_addr ctx /\
    cols ctx' = cols ctx /\ rows ctx' = rows ctx.

(** ** Further parts of [i2clcd.c] *)

(** The table of [i2clcd_strerror]. *)
Definition error_strings : list string :=
  ["Success"; "Failed to open I2C device"; "ioctl failed";
   "I2C write failed"; "Invalid argument"; "LCD not initialized";
   "Value out of range"]%string.

(** [err] is the [int] behind the enumeration; negating the least [int]
    overflows, which is undefined. *)
Definition i2clcd_strerror (err : Z) : option string :=
  if err =? -2147483648 then None else
  let idx := - err in
  if (idx <? 0) || (idx >=? Z.of_nat (List.length error_strings))
  then Some "Unknown error"%string
  else Some (nth (Z.to_nat idx) error_strings EmptyString).

(** The [struct timespec] that [i2clcd_delay_us] hands to [nanosleep]:
    [tv_sec] and [tv_nsec], computed in [unsigned int]. *)
Definition delay_timespec (us : Z) : Z * Z :=
  (us / 1000000, u32 ((us mod 1000000) * 1000)).

(** Playing a fixed list of events against the bus: delays always happen,
    a write happens and, when the bus refuses it, ends the run. *)
Fixpoint play (bus_write : history -> Z -> bool) (s : history) (h : history)
  : bool * history :=
  match s with
  | [] => (true, h)
  | EvDelay d :: s' => play bus_write s' (h ++ [EvDelay d])
  | EvWrite b :: s' =>
    if bus_write h b then play bus_write s' (h ++ [EvWrite b])
    else (false, h ++ [EvWrite b])
  end.

(** An operation that plays [s]: it reports [e0] and leaves [hd0] when the
    whole of [s] went through and the write-failed error otherwise. *)
Definition truncated (bus_write : history -> Z -> bool) (s : history)
           (e0 : i2clcd_err_t) (hd0 : option i2clcd_ctx) : api :=
  fun h =>
    let '(ok, h') := play bus_write s h in
    Some ((if ok then e0 else I2CLCD_ERR_WRITE, hd0), h').

(** Every write of [s], issued after [h], is accepted by the bus. *)
Definition accepted (bus_write : history -> Z -> bool) (h s : history)
  : Prop :=
  forall pre b post, s = pre ++ EvWrite b :: post ->
                     bus_write (h ++ pre) b = true.

(** The outcome of a setter that has recorded its flag in [ctx'] and then
    sends the events [s] after history [h]: either the bus accepts every
    write of [s], all of [s] is issued and the call succeeds; or the call
    stops at the first write of [s] that the bus refuses and returns the
    write-failed error.  The session left is [ctx'] in both cases. *)
Definition setter_outcome (bus_write : history -> Z -> bool) (h s : history)
           (ctx' : i2clcd_ctx)
           (res : option ((i2clcd_err_t * option i2clcd_ctx) * history))
  : Prop :=
  (accepted bus_write h s /\
   res = Some ((I2CLCD_OK, Some ctx'), h ++ s)) \/
  (exists pre b post,
     s = pre ++ EvWrite b :: post /\
     accepted bus_write h pre /\
     bus_write (h ++ pre) b = false /\
     res = Some ((I2CLCD_ERR_WRITE, Some ctx'), h ++ pre ++ [EvWrite b])).

(** The bytes of a C string: the character codes up to the first NUL. *)
Fixpoint c_bytes (s : string) : list Z :=
  match s with
  | EmptyString => []
  | String c s' => if char_code c =? 0 then [] else char_code c :: c_bytes s'
  end.

(** Call [c] on session [ctx] plays the fixed events [s] on every bus,
    reporting [e0] and leaving [ctx'] when they all go through. *)
Definition scripted (c : call) (ctx : i2clcd_ctx) (s : history)
           (e0 : i2clcd_err_t) (ctx' : i2clcd_ctx) : Prop :=
  forall bus_write h,
    run bus_write c (Some ctx) h = truncated bus_write s e0 (Some ctx') h.

(** Either call [c] on [ctx] runs into undefined behaviour on a reliable
    bus, or it is [scripted]; a script that reports an error other than
    success is empty and leaves the session as it was. *)
Definition script_or_undefined (c : call) (ctx : i2clcd_ctx) : Prop :=
  (run bus_good c (Some ctx) [] = None /\
   forall bus_write h,
     match run bus_write c (Some ctx) h with
     | Some ((e, _), _) => e = I2CLCD_ERR_WRITE
     | None => True
     end) \/
  exists s e0 ctx',
    scripted c ctx s e0 ctx' /\
    e0 <> I2CLCD_ERR_WRITE /\
    (e0 <> I2CLCD_OK -> s = [] /\ ctx' = ctx).

(** Whenever [m] returns, its result satisfies [Q] and it has only added
    events that satisfy [P] to the history. *)
Definition emits {A} (P : event -> Prop) (Q : A -> Prop) (m : M A) : Prop :=
  forall h,
    match m h with
    | Some (a, h') => Q a /\ exists sent, h' = h ++ sent /\ Forall P sent
    | None => True
    end.

(** A well-formed event: a delay is positive; a written word is one byte
    with the read/write pin (bit 1) low and the backlight pin (bit 3) equal
    to [bl]. *)
Definition wire_ok (bl : bool) (e : event) : Prop :=
  match e with
  | EvWrite b => 0 <= b < 256 /\ Z.testbit b 1 = false /\ Z.testbit b 3 = bl
  | EvDelay d => 0 < d
  end.

(** The session behind the handle has backlight flag [bl]. *)
Definition backlight_is (bl : bool) (res : i2clcd_err_t * option i2clcd_ctx)
  : Prop :=
  exists ctx', snd res = Some ctx' /\ backlight ctx' = bl.

(** What call [c] may change in session [ctx]: a display-control toggle
    its own bit, the backlight setter the backlight flag, any other call
    nothing. *)
Definition frame_of (c : call) (ctx ctx' : i2clcd_ctx) : Prop :=
  match c with
  | Display on =>
    only_bit_changed 2 on ctx ctx' /\ 0 <= display_ctrl ctx' < 256
  | Cursor visible =>
    only_bit_changed 1 visible ctx ctx' /\ 0 <= display_ctrl ctx' < 256
  | Blink blink =>
    only_bit_changed 0 blink ctx ctx' /\ 0 <= display_ctrl ctx' < 256
  | Backlight on => ctx' = set_backlight ctx on
  | _ => ctx' = ctx
  end.

(** The part of a session that no operation changes, and the range of its
    display-control flags. *)
Definition session_fixed (ctx ctx' : i2clcd_ctx) : Prop :=
  fd ctx' = fd ctx /\ i2c_addr ctx' = i2c_addr ctx /\
  cols ctx' = cols ctx /\ rows ctx' = rows ctx /\
  entry_mode ctx' = entry_mode ctx /\ line_addr ctx' = line_addr ctx /\
  (0 <= display_ctrl ctx < 8 -> 0 <= display_ctrl ctx' < 8).

(** ** Memory and descriptors of a session

    The system calls of [i2clcd_open] and [i2clcd_deinit] that acquire or
    release something: a successful [calloc], [free], [open(2)] with the
    descriptor it returned (negative when it failed), [ioctl], [close]. *)

Inductive sys_action : Set :=
| SysCalloc
| SysFree
| SysOpen (dev : string) (f : Z)
| SysIoctl (f addr : Z)
| SysClose (f : Z).

(** The calls [i2clcd_open] makes, path by path. *)
Definition i2clcd_open_sys (sys_calloc : bool) (sys_open : string -> Z)
           (sys_ioctl : Z -> Z -> Z)
           (config : option i2clcd_config_t) (handle : bool)
  : list sys_action :=
  match config, handle with
  | None, _ | _, false => []
  | Some config, true =>
    if negb sys_calloc then [] else
    SysCalloc ::
    (if (cfg_size config =? I2CLCD_16X2) || (cfg_size config =? I2CLCD_20X4)
        || (cfg_size config =? I2CLCD_CUSTOM)
     then
       let f := sys_open (cfg_i2c_device config) in
       SysOpen (cfg_i2c_device config) f ::
       (if f <? 0 then [SysFree] else
        SysIoctl f (cfg_i2c_addr config) ::
        (if sys_ioctl f (cfg_i2c_addr config) <? 0
         then [SysClose f; SysFree] else []))
     else [SysFree])
  end.

Definition i2clcd_deinit (handle : option i2clcd_ctx) : list sys_action :=
  match handle with
  | None => []
  | Some ctx => (if fd ctx >=? 0 then [SysClose (fd ctx)] else []) ++ [SysFree]
  end.

(** Removing one occurrence of a descriptor; [None] when it is not open. *)
Fixpoint close_fd (f : Z) (fds : list Z) : option (list Z) :=
  match fds with
  | [] => None
  | g :: fds' =>
    if g =? f then Some fds'
    else match close_fd f fds' with
         | Some r => Some (g :: r)
         | None => None
         end
  end.

(** What is still held after a list of calls, starting from [allocs]
    blocks and the descriptors [fds]; [None] when a block is freed or a
    descriptor closed that is not held. *)
Fixpoint held (acts : list sys_action) (allocs : nat) (fds : list Z)
  : option (nat * list Z) :=
  match acts with
  | [] => Some (allocs, fds)
  | SysCalloc :: acts' => held acts' (S allocs) fds
  | SysFree :: acts' =>
    match allocs with
    | O => None
    | S n => held acts' n fds
    end
  | SysOpen _ f :: acts' =>
    if f <? 0 then held acts' allocs fds else held acts' allocs (f :: fds)
  | SysIoctl _ _ :: acts' => held acts' allocs fds
  | SysClose f :: acts' =>
    match close_fd f fds with
    | Some fds' => held acts' allocs fds'
    | None => None
    end
  end.

(** ** [lcdctl.c]: argument parsing *)

(** [tolower] in the C locale, on a character code. *)
Definition tolower (x : Z) : Z :=
  if (65 <=? x) && (x <=? 90) then x + 32 else x.

(** [strcmp(a, b) == 0]: the walk of both strings up to the first
    difference or the NUL; past the end of the text lies the terminator. *)
Fixpoint strcmp_eq (a b : string) : bool :=
  match a, b with
  | EmptyString, EmptyString => true
  | EmptyString, String d _ => 0 =? char_code d
  | String c _, EmptyString => char_code c =? 0
  | String c a', String d b' =>
    if char_code c =? char_code d
    then (if char_code c =? 0 then true else strcmp_eq a' b')
    else false
  end.

(** [strcasecmp(a, b) == 0]. *)
Fixpoint strcasecmp_eq (a b : string) : bool :=
  match a, b with
  | EmptyString, EmptyString => true
  | EmptyString, String d _ => tolower 0 =? tolower (char_code d)
  | String c _, EmptyString => tolower (char_code c) =? tolower 0
  | String c a', String d b' =>
    if tolower (char_code c) =? tolower (char_code d)
    then (if char_code c =? 0 then true else strcasecmp_eq a' b')
    else false
  end.

(** [None] is the return value -1; [Some v] is 0 with [v] stored. *)
Definition parse_bool (str : string) : option bool :=
  if strcasecmp_eq str "on" || strcasecmp_eq str "yes" ||
     strcasecmp_eq str "1" || strcasecmp_eq str "true"
  then Some true
  else if strcasecmp_eq str "off" || strcasecmp_eq str "no" ||
          strcasecmp_eq str "0" || strcasecmp_eq str "false"
  then Some false
  else None.

Definition parse_size (str : string) : option Z :=
  if strcmp_eq str "16x2" || strcmp_eq str "1602" then Some I2CLCD_16X2
  else if strcmp_eq str "20x4" || strcmp_eq str "2004" then Some I2CLCD_20X4
  else None.

(** The effect of the [-s] option of [lcdctl] on its configuration:
    [parse_size] stores into the [size] field only. *)
Definition with_size (cfg : i2clcd_config_t) (size : Z) : i2clcd_config_t :=
  mkConfig (cfg_i2c_device cfg) (cfg_i2c_addr cfg) size (cfg_cols cfg)
           (cfg_rows cfg) (cfg_backlight cfg).

(** * Properties *)

(** ** Error codes *)

(** [I2CLCD_OK] is 0, every error is negative, and no two enumerators
    share a value. *)
Lemma err_code_distinct (e1 e2 : i2clcd_err_t) :
  err_code e1 = err_code e2 -> e1 = e2.
Proof. destruct e1, e2; cbn; intros H; try reflexivity; discriminate. Qed.

Lemma err_code_sign (e : i2clcd_err_t) :
  (err_is_ok e = true /\ err_code e = 0) \/
  (err_is_ok e = false /\ err_code e < 0).
Proof. destruct e; cbn; (left; split; reflexivity) || (right; split; reflexivity). Qed.

(** ** Bit-level facts *)

Lemma nibble_word_eq (n : Z) (rs bl : bool) :
  (let data := Z.land n PCF8574.DATA_MASK in
   let data := if rs then Z.lor data PCF8574.PIN_RS else data in
   if bl then Z.lor data PCF8574.PIN_BL else data)
  = Z.lor (Z.land n 0xF0) (ctl_bits rs bl).
Proof.
  unfold ctl_bits, PCF8574.DATA_MASK, PCF8574.PIN_RS, PCF8574.PIN_BL.
  destruct rs, bl; cbn [Z.shiftl Pos.iter Z.mul Pos.mul].
  - now rewrite <- Z.lor_assoc.
  - reflexivity.
  - reflexivity.
  - now rewrite Z.lor_0_r.
Qed.

Lemma land_F0_idem (b : Z) : Z.land (Z.land b 0xF0) 0xF0 = Z.land b 0xF0.
Proof. now rewrite <- Z.land_assoc. Qed.

Lemma ctl_bits_spec (rs bl : bool) :
  Z.testbit (ctl_bits rs bl) 0 = rs /\
  Z.testbit (ctl_bits rs bl) 1 = false /\
  Z.testbit (ctl_bits rs bl) 2 = false /\
  Z.testbit (ctl_bits rs bl) 3 = bl /\
  (forall i, 4 <= i -> Z.testbit (ctl_bits rs bl) i = false).
Proof.
  repeat split; try (destruct rs, bl; reflexivity).
  intros i Hi.
  assert (Hlt : ctl_bits rs bl < 2 ^ 4) by (destruct rs, bl; reflexivity).
  assert (Hge : 0 <= ctl_bits rs bl) by (destruct rs, bl; discriminate).
  destruct (Z.eq_dec (ctl_bits rs bl) 0) as [E | E].
  - rewrite E. apply Z.bits_0.
  - apply Z.bits_above_log2; [exact Hge |].
    assert (Z.log2 (ctl_bits rs bl) < 4) by (apply Z.log2_lt_pow2; lia).
    lia.
Qed.

Lemma small_high_bits (c k i : Z) :
  0 <= c < 2 ^ k -> k <= i -> Z.testbit c i = false.
Proof.
  intros [Hc0 Hc] Hi.
  destruct (Z.eq_dec c 0) as [-> | Hne]; [apply Z.bits_0 |].
  apply Z.bits_above_log2; [exact Hc0 |].
  assert (Z.log2 c < k) by (apply Z.log2_lt_pow2; lia). lia.
Qed.

Lemma byte_of_bits (w : Z) :
  (forall i, 8 <= i -> Z.testbit w i = false) -> 0 <= w < 256.
Proof.
  intros H.
  assert (E : w = w mod 2 ^ 8).
  { apply Z.bits_inj'. intros n Hn.
    rewrite Z.testbit_mod_pow2 by lia.
    destruct (Z.ltb_spec n 8) as [Hlt | Hge]; cbn [andb]; [reflexivity |].
    now apply H. }
  rewrite E. apply Z.mod_pos_bound. reflexivity.
Qed.

Lemma u8_byte (z : Z) : 0 <= z < 256 -> u8 z = z.
Proof. intros H. unfold u8. now apply Z.mod_small. Qed.

Lemma u8_range (z : Z) : 0 <= u8 z < 256.
Proof. unfold u8. apply Z.mod_pos_bound. reflexivity. Qed.

Lemma u8_bits (z i : Z) : i < 8 -> Z.testbit (u8 z) i = Z.testbit z i.
Proof. intros H. unfold u8. now apply (Z.mod_pow2_bits_low z 8 i). Qed.

(** A word on the wire: control bits below, data nibble above. *)
Lemma wire_word_bits (x : Z) (rs bl : bool) :
  let w := Z.lor (Z.land x 0xF0) (ctl_bits rs bl) in
  Z.testbit w 0 = rs /\ Z.testbit w 1 = false /\ Z.testbit w 2 = false /\
  Z.testbit w 3 = bl /\
  (forall i, 4 <= i < 8 -> Z.testbit w i = Z.testbit x i) /\
  (forall i, 8 <= i -> Z.testbit w i = false).
Proof.
  intros w. subst w.
  destruct (ctl_bits_spec rs bl) as (C0 & C1 & C2 & C3 & C4).
  repeat split.
  - rewrite Z.lor_spec, Z.land_spec, C0. cbn. now rewrite andb_false_r.
  - rewrite Z.lor_spec, Z.land_spec, C1. cbn. now rewrite andb_false_r.
  - rewrite Z.lor_spec, Z.land_spec, C2. cbn. now rewrite andb_false_r.
  - rewrite Z.lor_spec, Z.land_spec, C3. cbn. now rewrite andb_false_r.
  - intros i Hi. rewrite Z.lor_spec, Z.land_spec, C4 by lia.
    rewrite orb_false_r.
    assert (E : i = 4 \/ i = 5 \/ i = 6 \/ i = 7) by lia.
    destruct E as [-> | [-> | [-> | ->]]]; cbn; apply andb_true_r.
  - intros i Hi. rewrite Z.lor_spec, Z.land_spec, C4 by lia.
    rewrite (small_high_bits 0xF0 8 i) by (try split; try lia; reflexivity).
    now rewrite andb_false_r.
Qed.

Lemma wire_word_en_bits (x : Z) (rs bl : bool) :
  let w := Z.lor (Z.lor (Z.land x 0xF0) (ctl_bits rs bl)) 4 in
  Z.testbit w 0 = rs /\ Z.testbit w 1 = false /\ Z.testbit w 2 = true /\
  Z.testbit w 3 = bl /\
  (forall i, 4 <= i < 8 -> Z.testbit w i = Z.testbit x i) /\
  (forall i, 8 <= i -> Z.testbit w i = false).
Proof.
  intros w. subst w.
  destruct (wire_word_bits x rs bl) as (C0 & C1 & C2 & C3 & C4 & C8).
  repeat split.
  - rewrite Z.lor_spec, C0. cbn. apply orb_false_r.
  - rewrite Z.lor_spec, C1. reflexivity.
  - rewrite Z.lor_spec, C2. reflexivity.
  - rewrite Z.lor_spec, C3. cbn. apply orb_false_r.
  - intros i Hi. rewrite Z.lor_spec, C4 by lia.
    rewrite (small_high_bits 4 3 i) by (try split; try lia; reflexivity).
    apply orb_false_r.
  - intros i Hi. rewrite Z.lor_spec, C8 by lia.
    rewrite (small_high_bits 4 3 i) by (try split; try lia; reflexivity).
    reflexivity.
Qed.

Lemma wire_word_byte (x : Z) (rs bl : bool) :
  0 <= Z.lor (Z.land x 0xF0) (ctl_bits rs bl) < 256 /\
  0 <= Z.lor (Z.lor (Z.land x 0xF0) (ctl_bits rs bl)) 4 < 256.
Proof.
  split; apply byte_of_bits.
  - apply (wire_word_bits x rs bl).
  - apply (wire_word_en_bits x rs bl).
Qed.

Section ReliableBus.

Variable bus_write : history -> Z -> bool.
Hypothesis Hbus : reliable bus_write.

Lemma i2c_write_byte_ok ctx b h :
  i2clcd_i2c_write_byte bus_write ctx b h = Some (0, h ++ [EvWrite b]).
Proof. unfold i2clcd_i2c_write_byte. now rewrite Hbus. Qed.

Lemma write_nibble_ok ctx n rs h :
  i2clcd_write_nibble bus_write ctx n rs h
  = Some (0, h ++ nibble_pulse rs (backlight ctx) (Z.land n 0xF0)).
Proof.
  unfold i2clcd_write_nibble.
  pose proof (nibble_word_eq n rs (backlight ctx)) as E. cbv zeta in E.
  rewrite E. unfold bind, i2clcd_delay_us, emit, ret.
  rewrite i2c_write_byte_ok. cbn [Z.ltb Z.compare].
  rewrite i2c_write_byte_ok. cbn [Z.ltb Z.compare].
  unfold nibble_pulse. repeat rewrite <- app_assoc. reflexivity.
Qed.

Lemma write_byte_ok ctx b rs h :
  i2clcd_write_byte bus_write ctx b rs h
  = Some (0, h ++ byte_frame rs (backlight ctx) b).
Proof.
  unfold i2clcd_write_byte, bind.
  rewrite write_nibble_ok. cbn [Z.ltb Z.compare].
  rewrite write_nibble_ok. rewrite !land_F0_idem.
  unfold byte_frame. now rewrite <- app_assoc.
Qed.

Lemma command_ok ctx c h :
  i2clcd_command bus_write ctx c h
  = Some (0, h ++ byte_frame false (backlight ctx) c).
Proof. apply write_byte_ok. Qed.

Lemma data_ok ctx d h :
  i2clcd_data bus_write ctx d h
  = Some (0, h ++ byte_frame true (backlight ctx) d).
Proof. apply write_byte_ok. Qed.

End ReliableBus.

(** ** The byte transmitter *)

(** C5. On a bus that accepts every write, transmitting [b] with
    register-select [rs] on a session whose backlight flag is [bl] returns
    success and puts exactly four words on the bus, in this order: high
    nibble with enable high, high nibble with enable low, low nibble
    (moved to bits 7..4) with enable high, low nibble with enable low.  In
    every word bit 0 is [rs], bit 1 is clear, bit 3 is [bl], bits 4..7
    carry the nibble, and bit 2 is set in the first word of each pair and
    clear in the second; each word fits one byte. *)
Theorem write_byte_wire_format
        (bus_write : history -> Z -> bool) (Hbus : reliable bus_write)
        (ctx : i2clcd_ctx) (b : Z) (rs : bool) (h : history) :
  let bl := backlight ctx in
  let ctl := ctl_bits rs bl in
  let hi := Z.land b 0xF0 in
  let lo := Z.land (Z.shiftl b 4) 0xF0 in
  exists sent,
    i2clcd_write_byte bus_write ctx b rs h = Some (0, h ++ sent) /\
    writes sent = [Z.lor (Z.lor hi ctl) 4; Z.lor hi ctl;
                   Z.lor (Z.lor lo ctl) 4; Z.lor lo ctl] /\
    (Z.testbit ctl 0 = rs /\ Z.testbit ctl 1 = false /\
     Z.testbit ctl 2 = false /\ Z.testbit ctl 3 = bl /\
     forall i, 4 <= i -> Z.testbit ctl i = false) /\
    (forall i, 0 <= i < 4 ->
       Z.testbit hi (4 + i) = Z.testbit b (4 + i) /\
       Z.testbit lo (4 + i) = Z.testbit b i) /\
    (forall i, 0 <= i < 4 -> Z.testbit hi i = false /\ Z.testbit lo i = false) /\
    Forall (fun w => 0 <= w < 256) (writes sent).
Proof.
  intros bl ctl hi lo.
  exists (byte_frame rs bl b). split; [now apply write_byte_ok |].
  split; [reflexivity |]. split; [apply ctl_bits_spec |].
  assert (Hmask : forall i, 0 <= i < 4 ->
            Z.testbit 0xF0 (4 + i) = true /\ Z.testbit 0xF0 i = false).
  { intros i Hi. assert (E : i = 0 \/ i = 1 \/ i = 2 \/ i = 3) by lia.
    destruct E as [-> | [-> | [-> | ->]]]; split; reflexivity. }
  split; [| split].
  - intros i Hi. destruct (Hmask i Hi) as [Hm _]. subst hi lo.
    rewrite !Z.land_spec, Hm, !andb_true_r. split; [reflexivity |].
    rewrite Z.shiftl_spec by lia. f_equal. lia.
  - intros i Hi. destruct (Hmask i Hi) as [_ Hm]. subst hi lo.
    rewrite !Z.land_spec, Hm, !andb_false_r. split; reflexivity.
  - destruct (wire_word_byte b rs bl) as [H1 H2].
    destruct (wire_word_byte (Z.shiftl b 4) rs bl) as [H3 H4].
    change (writes (byte_frame rs bl b))
      with [Z.lor (Z.lor hi ctl) 4; Z.lor hi ctl;
            Z.lor (Z.lor lo ctl) 4; Z.lor lo ctl].
    repeat (apply Forall_cons; [assumption |]). apply Forall_nil.
Qed.

Lemma write_byte_wire_format_witness :
  exists sent,
    i2clcd_write_byte bus_good session_16x2 0x41 true [] = Some (0, [] ++ sent)
    /\ writes sent = [0x4D; 0x49; 0x1D; 0x19].
Proof.
  destruct (write_byte_wire_format bus_good (fun _ _ => eq_refl)
              session_16x2 0x41 true [])
    as (sent & Hrun & Hw & _).
  exists sent. split; [exact Hrun | exact Hw].
Defined.

(** ** Opening a session *)

Section Open.

Variable sys_calloc : bool.
Variable sys_open : string -> Z.
Variable sys_ioctl : Z -> Z -> Z.

(** What a successful [i2clcd_open] has stored behind the handle. *)
Lemma i2clcd_open_ok_inv config handle ctx :
  i2clcd_open sys_calloc sys_open sys_ioctl config handle
    = (I2CLCD_OK, Some ctx) ->
  exists cfg c r,
    config = Some cfg /\ handle = true /\
    ctx = mkCtx (sys_open (cfg_i2c_device cfg)) (cfg_i2c_addr cfg) c r 4 2
                (cfg_backlight cfg) [0x00; 0x40; 0x14; 0x54] /\
    ((cfg_size cfg = I2CLCD_16X2 /\ c = 16 /\ r = 2) \/
     (cfg_size cfg = I2CLCD_20X4 /\ c = 20 /\ r = 4) \/
     (cfg_size cfg = I2CLCD_CUSTOM /\ c = cfg_cols cfg /\ r = cfg_rows cfg)).
Proof.
  unfold i2clcd_open. intros H.
  destruct config as [cfg |]; [| discriminate].
  destruct handle; [| discriminate].
  destruct sys_calloc; cbn [negb] in H; [| discriminate].
  destruct (cfg_size cfg =? I2CLCD_16X2) eqn:E0;
    [| destruct (cfg_size cfg =? I2CLCD_20X4) eqn:E1;
       [| destruct (cfg_size cfg =? I2CLCD_CUSTOM) eqn:E2;
          [| discriminate]]];
    destruct (sys_open (cfg_i2c_device cfg) <? 0); try discriminate;
    destruct (sys_ioctl _ _ <? 0); try discriminate;
    injection H as <-;
    eexists cfg, _, _; (split; [reflexivity |]);
    (split; [reflexivity |]); (split; [reflexivity |]).
  - left. apply Z.eqb_eq in E0. auto.
  - right; left. apply Z.eqb_eq in E1. auto.
  - right; right. apply Z.eqb_eq in E2. auto.
Qed.

(** [i2clcd_open] never reports success without storing a session. *)
Lemma i2clcd_open_ok_some config handle h :
  i2clcd_open sys_calloc sys_open sys_ioctl config handle = (I2CLCD_OK, h) ->
  exists ctx, h = Some ctx.
Proof.
  unfold i2clcd_open. intros H.
  destruct config as [cfg |]; [| discriminate].
  destruct handle; [| discriminate].
  destruct sys_calloc; cbn [negb] in H; [| discriminate].
  destruct (cfg_size cfg =? I2CLCD_16X2);
    [| destruct (cfg_size cfg =? I2CLCD_20X4);
       [| destruct (cfg_size cfg =? I2CLCD_CUSTOM); [| discriminate]]];
    destruct (sys_open (cfg_i2c_device cfg) <? 0); try discriminate;
    destruct (sys_ioctl _ _ <? 0); try discriminate;
    injection H as <-; eexists; reflexivity.
Qed.

End Open.

(** ** The initialization sequencer *)

Lemma bind_run {A B} (m : M A) (k : A -> M B) (h h' : history) (a : A) :
  m h = Some (a, h') -> bind m k h = k a h'.
Proof. intros E. unfold bind. now rewrite E. Qed.

Lemma init_ok_same_session (ctx : i2clcd_ctx) :
  display_ctrl ctx = 4 -> entry_mode ctx = 2 ->
  set_display_ctrl
    (set_entry_mode (set_display_ctrl ctx 0) HD44780.ENTRY_INC)
    HD44780.DISPLAY_ON = ctx.
Proof. destruct ctx; cbn. now intros -> ->. Qed.

Section Init.

Variable bus_write : history -> Z -> bool.
Variable sys_calloc : bool.
Variable sys_open : string -> Z.
Variable sys_ioctl : Z -> Z -> Z.

(** On a bus that accepts every write the sequencer emits
    [init_sequence] and leaves the session as [i2clcd_open] made it. *)
Lemma i2clcd_init_reliable config handle ctx h :
  reliable bus_write ->
  i2clcd_open sys_calloc sys_open sys_ioctl config handle
    = (I2CLCD_OK, Some ctx) ->
  i2clcd_init bus_write sys_calloc sys_open sys_ioctl config handle h
    = Some ((I2CLCD_OK, Some ctx), h ++ init_sequence (backlight ctx)).
Proof.
  intros Hbus Hopen.
  destruct (i2clcd_open_ok_inv _ _ _ _ _ _ Hopen)
    as (cfg & c & r & -> & -> & Hctx & _).
  unfold i2clcd_init. rewrite Hopen. cbn [err_is_ok negb].
  assert (Hd : display_ctrl ctx = 4) by (subst ctx; reflexivity).
  assert (He : entry_mode ctx = 2) by (subst ctx; reflexivity).
  set (bl := backlight ctx).
  unfold i2clcd_delay_ms, i2clcd_delay_us, emit.
  repeat (first
    [ erewrite bind_run by reflexivity
    | erewrite bind_run by (apply i2c_write_byte_ok; exact Hbus)
    | erewrite bind_run by (apply write_nibble_ok; exact Hbus)
    | erewrite bind_run by (apply command_ok; exact Hbus) ]).
  unfold ret. rewrite init_ok_same_session by assumption.
  cbn [set_display_ctrl set_entry_mode backlight display_ctrl entry_mode].
  fold bl. rewrite ?Hd. unfold init_sequence.
  repeat rewrite <- app_assoc. reflexivity.
Qed.

End Init.

(** ** Totality on an arbitrary bus *)

Lemma returns_ret {A} (a : A) (P : A -> Prop) : P a -> returns (ret a) P.
Proof. intros Ha h. exists a, h. now split. Qed.

Lemma returns_bind {A B} (m : M A) (k : A -> M B) (P : A -> Prop)
      (Q : B -> Prop) :
  returns m P -> (forall a, P a -> returns (k a) Q) -> returns (bind m k) Q.
Proof.
  intros Hm Hk h. destruct (Hm h) as (a & h1 & E & Ha).
  destruct (Hk a Ha h1) as (b & h2 & E2 & Hb).
  exists b, h2. split; [| exact Hb]. unfold bind. now rewrite E.
Qed.

Lemma returns_weaken {A} (m : M A) (P Q : A -> Prop) :
  returns m P -> (forall a, P a -> Q a) -> returns m Q.
Proof.
  intros Hm HPQ h. destruct (Hm h) as (a & h1 & E & Ha).
  exists a, h1. split; [exact E | now apply HPQ].
Qed.

Lemma returns_emit (e : event) : returns (emit e) (fun _ => True).
Proof. intros h. exists tt, (h ++ [e]). now split. Qed.

Section AnyBus.

Variable bus_write : history -> Z -> bool.

Lemma returns_i2c_write_byte ctx b :
  returns (i2clcd_i2c_write_byte bus_write ctx b) (fun _ => True).
Proof. intros h. unfold i2clcd_i2c_write_byte. eexists _, _. now split. Qed.

Lemma returns_write_nibble ctx n rs :
  returns (i2clcd_write_nibble bus_write ctx n rs) (fun _ => True).
Proof.
  unfold i2clcd_write_nibble.
  eapply returns_bind; [apply returns_i2c_write_byte | intros r _].
  destruct (r <? 0); [now apply returns_ret |].
  eapply returns_bind; [apply returns_emit | intros _ _].
  eapply returns_bind; [apply returns_i2c_write_byte | intros r' _].
  destruct (r' <? 0); [now apply returns_ret |].
  eapply returns_bind; [apply returns_emit | intros _ _].
  now apply returns_ret.
Qed.

Lemma returns_write_byte ctx b rs :
  returns (i2clcd_write_byte bus_write ctx b rs) (fun _ => True).
Proof.
  unfold i2clcd_write_byte.
  eapply returns_bind; [apply returns_write_nibble | intros r _].
  destruct (r <? 0); [now apply returns_ret | apply returns_write_nibble].
Qed.

Lemma returns_command ctx c :
  returns (i2clcd_command bus_write ctx c) (fun _ => True).
Proof. apply returns_write_byte. Qed.

Lemma returns_data ctx d :
  returns (i2clcd_data bus_write ctx d) (fun _ => True).
Proof. apply returns_write_byte. Qed.

Variable sys_calloc : bool.
Variable sys_open : string -> Z.
Variable sys_ioctl : Z -> Z -> Z.

(** Whatever the bus does, [i2clcd_init] reports the result of
    [i2clcd_open]: no outcome of a bus write reaches its return value. *)
Lemma i2clcd_init_returns_open config handle ctx :
  i2clcd_open sys_calloc sys_open sys_ioctl config handle
    = (I2CLCD_OK, Some ctx) ->
  returns (i2clcd_init bus_write sys_calloc sys_open sys_ioctl config handle)
          (fun res => res = (I2CLCD_OK, Some ctx)).
Proof.
  intros Hopen.
  destruct (i2clcd_open_ok_inv _ _ _ _ _ _ Hopen)
    as (cfg & c & r & -> & -> & Hctx & _).
  unfold i2clcd_init. rewrite Hopen. cbn [err_is_ok negb].
  unfold i2clcd_delay_ms, i2clcd_delay_us.
  repeat (first
    [ eapply returns_bind; [apply returns_emit | intros _ _]
    | eapply returns_bind; [apply returns_i2c_write_byte | intros _ _]
    | eapply returns_bind; [apply returns_write_nibble | intros _ _]
    | eapply returns_bind; [apply returns_command | intros _ _] ]).
  apply returns_ret. rewrite init_ok_same_session; [reflexivity | |];
    subst ctx; reflexivity.
Qed.

Lemma i2clcd_init_ok_inv config handle ctx h h' :
  i2clcd_init bus_write sys_calloc sys_open sys_ioctl config handle h
    = Some ((I2CLCD_OK, Some ctx), h') ->
  i2clcd_open sys_calloc sys_open sys_ioctl config handle
    = (I2CLCD_OK, Some ctx).
Proof.
  intros Hinit.
  destruct (i2clcd_open sys_calloc sys_open sys_ioctl config handle)
    as [err hres] eqn:Hopen.
  destruct err;
    try (unfold i2clcd_init in Hinit; rewrite Hopen in Hinit; discriminate).
  destruct (i2clcd_open_ok_some _ _ _ _ _ _ Hopen) as [ctx0 ->].
  destruct (i2clcd_init_returns_open _ _ _ Hopen h) as (res & h1 & E & ->).
  rewrite E in Hinit. now injection Hinit as <- _.
Qed.

End AnyBus.

(** C4. When the connection opens and the bus accepts every write,
    [i2clcd_init] succeeds and its bus traffic is exactly
    [init_sequence]: the power-on delay first, then the backlight baseline
    word (backlight bit only, enable low), the 8-bit-mode nibble 0x30 three
    times and the 4-bit-mode nibble 0x20 once (each as an enable-high word
    followed by the same word with enable low), then the commands
    function-set 0x28 (4-bit, 2-line, 5x8), display-off 0x08, entry-mode
    0x06 (increment, no shift) and display-on 0x0C, each as a full byte
    frame.  [B] is the backlight bit of every word. *)
Theorem init_sequence_on_wire
        (bus_write : history -> Z -> bool)
        (sys_calloc : bool) (sys_open : string -> Z) (sys_ioctl : Z -> Z -> Z)
        (config : option i2clcd_config_t) (handle : bool)
        (ctx : i2clcd_ctx) (h : history)
        (Hbus : reliable bus_write)
        (Hopen : i2clcd_open sys_calloc sys_open sys_ioctl config handle
                 = (I2CLCD_OK, Some ctx)) :
  let B := if backlight ctx then 8 else 0 in
  let pair := fun n => [Z.lor (Z.lor n B) 4; Z.lor n B] in
  exists sent,
    i2clcd_init bus_write sys_calloc sys_open sys_ioctl config handle h
      = Some ((I2CLCD_OK, Some ctx), h ++ sent) /\
    sent = init_sequence (backlight ctx) /\
    (exists rest, sent = EvDelay 50000 :: EvWrite B :: rest) /\
    writes sent =
      [B] ++ pair 0x30 ++ pair 0x30 ++ pair 0x30 ++ pair 0x20 ++
      (pair 0x20 ++ pair 0x80) ++ (pair 0x00 ++ pair 0x80) ++
      (pair 0x00 ++ pair 0x60) ++ (pair 0x00 ++ pair 0xC0) /\
    0x28 = Z.lor (Z.lor (Z.lor HD44780.CMD_FUNCTION_SET HD44780.MODE_4BIT)
                        HD44780.LINES_2) HD44780.DOTS_5X8 /\
    0x08 = HD44780.CMD_DISPLAY_CTRL /\
    0x06 = Z.lor HD44780.CMD_ENTRY_MODE HD44780.ENTRY_INC /\
    0x0C = Z.lor HD44780.CMD_DISPLAY_CTRL HD44780.DISPLAY_ON.
Proof.
  intros B pair. exists (init_sequence (backlight ctx)).
  split; [now apply i2clcd_init_reliable |].
  split; [reflexivity |].
  split; [eexists; reflexivity |].
  split; [| repeat split].
  subst B pair. destruct (backlight ctx); reflexivity.
Qed.

Lemma init_sequence_on_wire_witness :
  exists sent,
    i2clcd_init bus_good true open_fd3 ioctl_ok (Some config_16x2) true []
      = Some ((I2CLCD_OK, Some session_16x2), [] ++ sent) /\
    writes sent =
      [0x08; 0x3C; 0x38; 0x3C; 0x38; 0x3C; 0x38; 0x2C; 0x28;
       0x2C; 0x28; 0x8C; 0x88; 0x0C; 0x08; 0x8C; 0x88;
       0x0C; 0x08; 0x6C; 0x68; 0x0C; 0x08; 0xCC; 0xC8].
Proof.
  destruct (init_sequence_on_wire bus_good true open_fd3 ioctl_ok
              (Some config_16x2) true session_16x2 []
              (fun _ _ => eq_refl) eq_refl)
    as (sent & Hrun & _ & _ & Hw & _).
  exists sent. split; [exact Hrun | exact Hw].
Defined.

(** C1. A bus that refuses every write does not change the result of
    [i2clcd_init]: the connection opens, every write of the sequence fails,
    and the call still returns [I2CLCD_OK] with a session; on the same bus
    [i2clcd_clear] reports [I2CLCD_ERR_WRITE]. *)
Theorem i2clcd_init_dead_bus_returns_ok :
  i2clcd_init bus_dead true open_fd3 ioctl_ok (Some config_16x2) true []
    = Some ((I2CLCD_OK, Some session_16x2),
            [EvDelay 50000; EvWrite 0x08; EvDelay 1000;
             EvWrite 0x3C; EvDelay 5000; EvWrite 0x3C; EvDelay 150;
             EvWrite 0x3C; EvDelay 150; EvWrite 0x2C; EvDelay 50;
             EvWrite 0x2C; EvWrite 0x0C; EvWrite 0x0C; EvWrite 0x0C]) /\
  bus_dead [] 0x08 = false /\
  i2clcd_clear bus_dead (Some session_16x2) []
    = Some ((I2CLCD_ERR_WRITE, Some session_16x2), [EvWrite 0x0C]).
Proof. repeat split. Qed.

(** ** Session dimensions *)

(** C2, as stated, fails: a custom configuration of 0 columns and 5 rows
    is accepted, and the session it yields has no column and more rows
    than the address table has slots. *)
Lemma open_custom_dimensions_unchecked :
  exists ctx,
    i2clcd_open true open_fd3 ioctl_ok (Some (config_custom 0 5)) true
      = (I2CLCD_OK, Some ctx) /\
    ~ (cols ctx > 0 /\ rows ctx > 0 /\ rows ctx <= 4).
Proof.
  eexists. split; [reflexivity |]. cbn. lia.
Qed.

(** C2, amended. A session returned successfully by [i2clcd_open] or
    [i2clcd_init] has 16 columns and 2 rows for the 16x2 preset, 20
    columns and 4 rows for the 20x4 preset, and for [I2CLCD_CUSTOM] the
    columns and rows of the configuration, copied unchecked; so it
    satisfies columns > 0, rows > 0 and rows <= 4 exactly when the preset
    is not custom or the caller's own values satisfy them. *)
Theorem session_dimensions
        (bus_write : history -> Z -> bool)
        (sys_calloc : bool) (sys_open : string -> Z) (sys_ioctl : Z -> Z -> Z)
        (cfg : i2clcd_config_t) (handle : bool) (ctx : i2clcd_ctx)
        (Hret : i2clcd_open sys_calloc sys_open sys_ioctl (Some cfg) handle
                  = (I2CLCD_OK, Some ctx) \/
                exists h h',
                  i2clcd_init bus_write sys_calloc sys_open sys_ioctl
                              (Some cfg) handle h
                  = Some ((I2CLCD_OK, Some ctx), h')) :
  (cfg_size cfg = I2CLCD_16X2 -> cols ctx = 16 /\ rows ctx = 2) /\
  (cfg_size cfg = I2CLCD_20X4 -> cols ctx = 20 /\ rows ctx = 4) /\
  (cfg_size cfg = I2CLCD_CUSTOM ->
     cols ctx = cfg_cols cfg /\ rows ctx = cfg_rows cfg) /\
  ((cols ctx > 0 /\ rows ctx > 0 /\ rows ctx <= 4) <->
   (cfg_size cfg = I2CLCD_CUSTOM ->
      cfg_cols cfg > 0 /\ cfg_rows cfg > 0 /\ cfg_rows cfg <= 4)).
Proof.
  assert (Hopen : i2clcd_open sys_calloc sys_open sys_ioctl (Some cfg) handle
                  = (I2CLCD_OK, Some ctx)).
  { destruct Hret as [H | (h & h' & H)]; [exact H |].
    now apply i2clcd_init_ok_inv in H. }
  destruct (i2clcd_open_ok_inv _ _ _ _ _ _ Hopen)
    as (cfg' & c & r & [= <-] & _ & -> & Hdims).
  cbn [cols rows]. unfold I2CLCD_16X2, I2CLCD_20X4, I2CLCD_CUSTOM in *.
  destruct Hdims as [(Hs & -> & ->) | [(Hs & -> & ->) | (Hs & -> & ->)]];
    rewrite Hs; repeat split; intros; try lia; try discriminate; tauto.
Qed.

Lemma session_dimensions_witness :
  (cols session_20x4 > 0 /\ rows session_20x4 > 0 /\ rows session_20x4 <= 4)
  <-> (cfg_size config_20x4 = I2CLCD_CUSTOM ->
       cfg_cols config_20x4 > 0 /\ cfg_rows config_20x4 > 0 /\
       cfg_rows config_20x4 <= 4).
Proof.
  apply (session_dimensions bus_good true open_fd3 ioctl_ok config_20x4 true
           session_20x4 (or_introl eq_refl)).
Defined.

(** ** The display-control shadow register *)

Lemma toggle_flag_spec (ctx : i2clcd_ctx) (k : Z) (on : bool) :
  0 <= k < 8 ->
  let ctx' := toggle_flag ctx (2 ^ k) on in
  Z.testbit (display_ctrl ctx') k = on /\
  (forall i, 0 <= i < 8 -> i <> k ->
     Z.testbit (display_ctrl ctx') i = Z.testbit (display_ctrl ctx) i) /\
  0 <= display_ctrl ctx' < 256 /\
  ctx' = set_display_ctrl ctx (display_ctrl ctx').
Proof.
  intros Hk ctx'. subst ctx'. unfold toggle_flag.
  destruct on; cbn [display_ctrl set_display_ctrl].
  - split; [| split; [| split; [apply u8_range | reflexivity]]].
    + rewrite u8_bits, Z.lor_spec, Z.pow2_bits_eqb, Z.eqb_refl by lia.
      apply orb_true_r.
    + intros i Hi Hne.
      rewrite u8_bits, Z.lor_spec, Z.pow2_bits_eqb by lia.
      replace (k =? i) with false by (symmetry; apply Z.eqb_neq; lia).
      apply orb_false_r.
  - split; [| split; [| split; [apply u8_range | reflexivity]]].
    + rewrite u8_bits, Z.land_spec, Z.lnot_spec, Z.pow2_bits_eqb,
        Z.eqb_refl by lia.
      apply andb_false_r.
    + intros i Hi Hne.
      rewrite u8_bits, Z.land_spec, Z.lnot_spec, Z.pow2_bits_eqb by lia.
      replace (k =? i) with false by (symmetry; apply Z.eqb_neq; lia).
      apply andb_true_r.
Qed.

Lemma lor_byte (a b : Z) :
  0 <= a < 256 -> 0 <= b < 256 -> 0 <= Z.lor a b < 256.
Proof.
  intros Ha Hb. apply byte_of_bits. intros i Hi.
  rewrite Z.lor_spec.
  now rewrite (small_high_bits a 8 i), (small_high_bits b 8 i).
Qed.

Lemma display_ctrl_cmd_byte (d : Z) :
  0 <= d < 256 -> u8 (Z.lor HD44780.CMD_DISPLAY_CTRL d) = Z.lor 0x08 d.
Proof.
  intros Hd. apply u8_byte. apply lor_byte; [| exact Hd].
  split; [discriminate | reflexivity].
Qed.

(** Or-ing the set-DDRAM command bit onto a 7-bit address adds it. *)
Lemma ddram_cmd_add (a : Z) : 0 <= a < 128 -> Z.lor 0x80 a = 0x80 + a.
Proof.
  intros Ha.
  assert (Hdisj : Z.land 0x80 a = 0).
  { apply Z.bits_inj'. intros i Hi. rewrite Z.land_spec, Z.bits_0.
    destruct (Z.eq_dec i 7) as [-> | Hne].
    - rewrite (small_high_bits a 7 7) by lia. reflexivity.
    - change 0x80 with (2 ^ 7). rewrite Z.pow2_bits_eqb by lia.
      replace (7 =? i) with false by (symmetry; apply Z.eqb_neq; lia).
      reflexivity. }
  rewrite Z.add_nocarry_lxor by exact Hdisj.
  symmetry. now apply Z.lxor_lor.
Qed.

(** C3, as stated, fails: when the bus refuses the write, turning the
    display off still clears the recorded display-on bit, and switching the
    backlight off still clears the recorded backlight flag; both calls
    return the write-failed error. *)
Lemma failed_toggle_changes_recorded_state :
  (exists ctx',
     i2clcd_display bus_dead (Some session_16x2) false []
       = Some ((I2CLCD_ERR_WRITE, Some ctx'), [EvWrite 0x0C]) /\
     bus_dead [] 0x0C = false /\
     display_ctrl session_16x2 = 4 /\ display_ctrl ctx' = 0) /\
  (exists ctx',
     i2clcd_backlight bus_dead (Some session_16x2) false []
       = Some ((I2CLCD_ERR_WRITE, Some ctx'), [EvWrite 0x00]) /\
     bus_dead [] 0x00 = false /\
     backlight session_16x2 = true /\ backlight ctx' = false).
Proof.
  split; eexists; repeat split.
Qed.

Lemma toggle_reliable (bus_write : history -> Z -> bool) (k : Z)
      (ctx : i2clcd_ctx) (on : bool) (h : history) :
  reliable bus_write -> 0 <= k < 8 ->
  exists ctx',
    send_display_ctrl bus_write (toggle_flag ctx (2 ^ k) on) h
      = Some ((I2CLCD_OK, Some ctx'),
              h ++ byte_frame false (backlight ctx)
                     (Z.lor 0x08 (display_ctrl ctx'))) /\
    only_bit_changed k on ctx ctx'.
Proof.
  intros Hbus Hk.
  destruct (toggle_flag_spec ctx k on Hk) as (Hbit & Hothers & Hrange & Hrest).
  exists (toggle_flag ctx (2 ^ k) on). split; [| now repeat split].
  unfold send_display_ctrl, i2clcd_update_display_ctrl.
  erewrite bind_run by (apply command_ok; exact Hbus).
  cbn [Z.ltb Z.compare]. unfold ret.
  rewrite display_ctrl_cmd_byte by exact Hrange.
  rewrite Hrest at 2. reflexivity.
Qed.

(** C9. On a bus that accepts every write, each of [i2clcd_display],
    [i2clcd_cursor] and [i2clcd_blink] succeeds, changes only its own bit
    of the recorded display-control flags (bit 2, 1 and 0) and sends the
    display-control command 0x08 or-ed with all the recorded flags; after
    [i2clcd_blink(true)], [i2clcd_cursor(true)] sends a register value
    whose blink bit (bit 0) and cursor bit (bit 1) are both set and whose
    display bit is the one recorded before. *)
Theorem toggles_independent
        (bus_write : history -> Z -> bool) (Hbus : reliable bus_write)
        (ctx : i2clcd_ctx) (h : history) :
  (forall on, exists ctx',
     i2clcd_display bus_write (Some ctx) on h
       = Some ((I2CLCD_OK, Some ctx'),
               h ++ byte_frame false (backlight ctx)
                      (Z.lor 0x08 (display_ctrl ctx'))) /\
     only_bit_changed 2 on ctx ctx') /\
  (forall on, exists ctx',
     i2clcd_cursor bus_write (Some ctx) on h
       = Some ((I2CLCD_OK, Some ctx'),
               h ++ byte_frame false (backlight ctx)
                      (Z.lor 0x08 (display_ctrl ctx'))) /\
     only_bit_changed 1 on ctx ctx') /\
  (forall on, exists ctx',
     i2clcd_blink bus_write (Some ctx) on h
       = Some ((I2CLCD_OK, Some ctx'),
               h ++ byte_frame false (backlight ctx)
                      (Z.lor 0x08 (display_ctrl ctx'))) /\
     only_bit_changed 0 on ctx ctx') /\
  (exists ctx1 h1 ctx2 reg,
     i2clcd_blink bus_write (Some ctx) true h
       = Some ((I2CLCD_OK, Some ctx1), h1) /\
     i2clcd_cursor bus_write (Some ctx1) true h1
       = Some ((I2CLCD_OK, Some ctx2),
               h1 ++ byte_frame false (backlight ctx) reg) /\
     reg = Z.lor 0x08 (display_ctrl ctx2) /\
     Z.testbit reg 0 = true /\ Z.testbit reg 1 = true /\
     Z.testbit reg 2 = Z.testbit (display_ctrl ctx) 2 /\
     Z.testbit reg 3 = true).
Proof.
  split; [| split; [| split]].
  - intros on. apply (toggle_reliable bus_write 2 ctx on h Hbus). lia.
  - intros on. apply (toggle_reliable bus_write 1 ctx on h Hbus). lia.
  - intros on. apply (toggle_reliable bus_write 0 ctx on h Hbus). lia.
  - destruct (toggle_reliable bus_write 0 ctx true h Hbus)
      as (ctx1 & E1 & Hb1 & Ho1 & Hr1); [lia |].
    destruct (toggle_reliable bus_write 1 ctx1 true
                (h ++ byte_frame false (backlight ctx)
                        (Z.lor 0x08 (display_ctrl ctx1))) Hbus)
      as (ctx2 & E2 & Hb2 & Ho2 & Hr2); [lia |].
    assert (Hbl : backlight ctx1 = backlight ctx) by (now rewrite Hr1).
    rewrite Hbl in E2.
    eexists ctx1, _, ctx2, _. split; [exact E1 |]. split; [exact E2 |].
    split; [reflexivity |].
    rewrite !Z.lor_spec, Hb2.
    rewrite (Ho2 0), (Ho2 2), (Ho1 2), Hb1 by lia.
    repeat split.
Qed.

Lemma toggles_independent_witness :
  exists ctx1 h1 ctx2 reg,
    i2clcd_blink bus_good (Some session_16x2) true []
      = Some ((I2CLCD_OK, Some ctx1), h1) /\
    i2clcd_cursor bus_good (Some ctx1) true h1
      = Some ((I2CLCD_OK, Some ctx2),
              h1 ++ byte_frame false (backlight session_16x2) reg) /\
    Z.testbit reg 0 = true.
Proof.
  destruct (toggles_independent bus_good (fun _ _ => eq_refl) session_16x2 [])
    as (_ & _ & _ & ctx1 & h1 & ctx2 & reg & E1 & E2 & _ & Hb & _).
  exists ctx1, h1, ctx2, reg. repeat split; assumption.
Defined.

(** ** The addressing model *)

Lemma geb_false (a b : Z) : a < b -> (a >=? b) = false.
Proof. intros H. rewrite Z.geb_leb. apply Z.leb_gt. lia. Qed.

Lemma geb_true (a b : Z) : a >= b -> (a >=? b) = true.
Proof. intros H. rewrite Z.geb_leb. apply Z.leb_le. lia. Qed.

Lemma set_cursor_reliable (bus_write : history -> Z -> bool)
      (ctx : i2clcd_ctx) (col row base : Z) (h : history) :
  reliable bus_write ->
  row < rows ctx -> col < cols ctx ->
  nth_error (line_addr ctx) (Z.to_nat row) = Some base ->
  i2clcd_set_cursor bus_write (Some ctx) col row h
    = Some ((I2CLCD_OK, Some ctx),
            h ++ byte_frame false (backlight ctx)
                   (Z.lor 0x80 (u8 (base + col)))).
Proof.
  intros Hbus Hrow Hcol Hbase. unfold i2clcd_set_cursor.
  rewrite (geb_false row), (geb_false col) by assumption.
  cbn [orb]. rewrite Hbase.
  erewrite bind_run by (apply command_ok; exact Hbus).
  cbn [Z.ltb Z.compare]. unfold ret.
  rewrite (u8_byte (Z.lor _ _)); [reflexivity |].
  apply lor_byte; [split; [discriminate | reflexivity] | apply u8_range].
Qed.






(** ** Writing a whole line *)

Lemma set_line_loop_reliable (bus_write : history -> Z -> bool)
      (ctx : i2clcd_ctx) (text : string) (n : nat) :
  reliable bus_write ->
  forall (i : nat) (h : history),
    set_line_loop bus_write ctx text (strlen text) i n h
    = Some (I2CLCD_OK,
            h ++ flat_map (byte_frame true (backlight ctx))
                   (map (fun j => if (j <? strlen text)%nat
                                  then char_code (char_at text j) else 32)
                        (seq i n))).
Proof.
  intros Hbus. induction n as [| n IH]; intros i h.
  - cbn. now rewrite app_nil_r.
  - cbn [set_line_loop seq map flat_map].
    erewrite bind_run by (apply data_ok; exact Hbus).
    cbn [Z.ltb Z.compare]. rewrite IH, <- app_assoc.
    destruct (i <? strlen text)%nat; reflexivity.
Qed.

Lemma padded_line_length (text : string) (columns : nat) :
  List.length (padded_line text columns) = columns.
Proof. unfold padded_line. now rewrite length_map, length_seq. Qed.

Lemma nth_map_seq (f : nat -> Z) (n : nat) :
  forall s i d, (i < n)%nat -> nth i (map f (seq s n)) d = f (s + i)%nat.
Proof.
  induction n as [| n IH]; intros s i d Hi; [lia |].
  destruct i as [| i]; cbn [seq map nth].
  - f_equal. lia.
  - rewrite IH by lia. f_equal. lia.
Qed.

Lemma padded_line_nth (text : string) (columns i : nat) :
  (i < columns)%nat ->
  nth i (padded_line text columns) 0
  = if (i <? strlen text)%nat then char_code (char_at text i) else 32.
Proof.
  intros Hi. unfold padded_line. now rewrite nth_map_seq.
Qed.

(** C7, as stated, fails on a session without columns, which
    [i2clcd_open] accepts as a custom geometry: for line 0 of a 0x2
    session, [i2clcd_set_line] is refused by the column check of
    [i2clcd_set_cursor], returns the out-of-range error and puts nothing
    on the bus, so the cursor is not repositioned. *)
Lemma set_line_without_columns :
  exists ctx,
    i2clcd_open true open_fd3 ioctl_ok (Some (config_custom 0 2)) true
      = (I2CLCD_OK, Some ctx) /\
    cols ctx = 0 /\ 0 < rows ctx /\
    nth_error (line_addr ctx) 0 = Some 0x00 /\
    i2clcd_set_line bus_good (Some ctx) 0 (Some "ABC"%string) []
      = Some ((I2CLCD_ERR_RANGE, Some ctx), []).
Proof.
  eexists. split; [reflexivity |]. repeat split.
Qed.

(** C7, amended. For a session with at least one column, a line [line < rows]
    whose base address [base] is in the table, a non-null text and a bus
    that accepts every write: [i2clcd_set_line] succeeds, first issues the
    set-DDRAM-address command for column 0 of the line, and then exactly
    [columns] data frames, frame [i] carrying character [i] of the text
    for [i < strlen text] and the space character 32 from there on,
    whatever the length of the text. *)
Theorem set_line_pads_and_truncates
        (bus_write : history -> Z -> bool) (Hbus : reliable bus_write)
        (ctx : i2clcd_ctx) (line base : Z) (text : string) (h : history)
        (Hline : line < rows ctx) (Hcols : 0 < cols ctx)
        (Hbase : nth_error (line_addr ctx) (Z.to_nat line) = Some base) :
  let columns := Z.to_nat (cols ctx) in
  let cells := padded_line text columns in
  i2clcd_set_line bus_write (Some ctx) line (Some text) h
    = Some ((I2CLCD_OK, Some ctx),
            h ++ byte_frame false (backlight ctx) (Z.lor 0x80 (u8 (base + 0)))
              ++ flat_map (byte_frame true (backlight ctx)) cells) /\
  List.length cells = columns /\
  (forall i, (i < columns)%nat ->
     nth i cells 0 = if (i <? strlen text)%nat
                     then char_code (char_at text i) else 32).
Proof.
  intros columns cells. split; [| split].
  - unfold i2clcd_set_line. rewrite (geb_false line) by exact Hline.
    erewrite bind_run
      by (apply set_cursor_reliable; [exact Hbus | exact Hline | lia | exact Hbase]).
    cbn [err_is_ok negb].
    erewrite bind_run by (apply set_line_loop_reliable; exact Hbus).
    unfold ret. now rewrite <- app_assoc.
  - apply padded_line_length.
  - intros i Hi. now apply padded_line_nth.
Qed.

Lemma set_line_pads_and_truncates_witness :
  i2clcd_set_line bus_good (Some session_16x2) 1 (Some "ABC"%string) []
    = Some ((I2CLCD_OK, Some session_16x2),
            [] ++ byte_frame false true (Z.lor 0x80 (u8 (0x40 + 0)))
               ++ flat_map (byte_frame true true)
                    [65; 66; 67; 32; 32; 32; 32; 32;
                     32; 32; 32; 32; 32; 32; 32; 32]).
Proof.
  apply (set_line_pads_and_truncates bus_good (fun _ _ => eq_refl)
           session_16x2 1 0x40 "ABC"%string [] eq_refl eq_refl eq_refl).
Defined.

(** ** Custom characters *)

Lemma location_cmd_byte (location : Z) :
  0 <= location <= 7 ->
  u8 (Z.lor HD44780.CMD_SET_CGRAM (Z.shiftl location 3))
  = Z.lor 0x40 (Z.shiftl location 3).
Proof.
  intros H. apply u8_byte. apply lor_byte.
  - split; [discriminate | reflexivity].
  - rewrite Z.shiftl_mul_pow2 by lia. change (2 ^ 3) with 8. lia.
Qed.

Lemma create_char_loop_reliable (bus_write : history -> Z -> bool)
      (ctx : i2clcd_ctx) (l : list Z) :
  reliable bus_write ->
  forall (pre : list Z) (h : history),
    create_char_loop bus_write ctx (pre ++ l) (List.length pre)
                     (List.length l) h
    = Some (I2CLCD_OK, h ++ flat_map (byte_frame true (backlight ctx)) l).
Proof.
  intros Hbus. induction l as [| x l IH]; intros pre h.
  - cbn. now rewrite app_nil_r.
  - cbn [List.length create_char_loop flat_map].
    rewrite nth_error_app2, Nat.sub_diag by lia. cbn [nth_error].
    erewrite bind_run by (apply data_ok; exact Hbus).
    cbn [Z.ltb Z.compare].
    replace (pre ++ x :: l) with ((pre ++ [x]) ++ l)
      by (now rewrite <- app_assoc).
    replace (S (List.length pre)) with (List.length (pre ++ [x]))
      by (rewrite length_app; cbn; lia).
    rewrite IH. now rewrite <- app_assoc.
Qed.

(** C8. On any bus, [i2clcd_create_char] with a slot above 7 returns the
    out-of-range error and leaves the bus history as it was.  With a slot
    in 0..7, a pattern of 8 bytes and a bus that accepts every write, it
    succeeds and issues, in this order and nothing else: one command frame
    set-CGRAM-address 0x40 or-ed with [slot << 3], one data frame for each
    of the 8 pattern bytes in order, and one command frame
    set-DDRAM-address 0x80, that is address 0. *)
Theorem create_char_traffic
        (bus_write : history -> Z -> bool) (ctx : i2clcd_ctx)
        (location : Z) (charmap : list Z) (h : history) :
  (location > 7 ->
   i2clcd_create_char bus_write (Some ctx) location (Some charmap) h
     = Some ((I2CLCD_ERR_RANGE, Some ctx), h)) /\
  (reliable bus_write -> 0 <= location <= 7 -> List.length charmap = 8%nat ->
   i2clcd_create_char bus_write (Some ctx) location (Some charmap) h
     = Some ((I2CLCD_OK, Some ctx),
             h ++ byte_frame false (backlight ctx)
                    (Z.lor 0x40 (Z.shiftl location 3))
               ++ flat_map (byte_frame true (backlight ctx)) charmap
               ++ byte_frame false (backlight ctx) 0x80) /\
   List.length (flat_map (byte_frame true (backlight ctx)) charmap)
     = (8 * List.length (byte_frame true (backlight ctx) 0))%nat /\
   Z.lor 0x40 (Z.shiftl location 3) = 0x40 + 8 * location).
Proof.
  split.
  - intros Hloc. unfold i2clcd_create_char.
    replace (location >? 7) with true; [reflexivity |].
    symmetry. rewrite Z.gtb_ltb. apply Z.ltb_lt. lia.
  - intros Hbus Hloc Hlen.
    split; [| split].
    + unfold i2clcd_create_char.
      replace (location >? 7) with false
        by (symmetry; rewrite Z.gtb_ltb; apply Z.ltb_ge; lia).
      erewrite bind_run by (apply command_ok; exact Hbus).
      cbn [Z.ltb Z.compare].
      erewrite bind_run
        by (rewrite <- Hlen; apply (create_char_loop_reliable _ _ _ Hbus [])).
      cbn [err_is_ok negb].
      erewrite bind_run by (apply command_ok; exact Hbus).
      cbn [Z.ltb Z.compare]. unfold ret.
      rewrite location_cmd_byte by exact Hloc.
      repeat rewrite <- app_assoc. reflexivity.
    + destruct charmap as [| r0 [| r1 [| r2 [| r3 [| r4 [| r5 [| r6 [| r7 [| ? ?]]]]]]]]];
        try discriminate.
      reflexivity.
    + rewrite Z.shiftl_mul_pow2 by lia. change (2 ^ 3) with 8.
      assert (E : location = 0 \/ location = 1 \/ location = 2 \/
                  location = 3 \/ location = 4 \/ location = 5 \/
                  location = 6 \/ location = 7) by lia.
      destruct E as [-> | [-> | [-> | [-> | [-> | [-> | [-> | ->]]]]]]];
        reflexivity.
Qed.

Lemma create_char_traffic_witness :
  i2clcd_create_char bus_good (Some session_16x2) 8
                     (Some [1; 2; 3; 4; 5; 6; 7; 8]) []
    = Some ((I2CLCD_ERR_RANGE, Some session_16x2), []) /\
  i2clcd_create_char bus_good (Some session_16x2) 0
                     (Some [1; 2; 3; 4; 5; 6; 7; 8]) []
    = Some ((I2CLCD_OK, Some session_16x2),
            [] ++ byte_frame false true (Z.lor 0x40 (Z.shiftl 0 3))
               ++ flat_map (byte_frame true true) [1; 2; 3; 4; 5; 6; 7; 8]
               ++ byte_frame false true 0x80).
Proof.
  destruct (create_char_traffic bus_good session_16x2 8
              [1; 2; 3; 4; 5; 6; 7; 8] []) as (Hout & _).
  destruct (create_char_traffic bus_good session_16x2 0
              [1; 2; 3; 4; 5; 6; 7; 8] []) as (_ & Hin).
  split.
  - apply Hout. reflexivity.
  - apply (Hin (fun _ _ => eq_refl)); [split; discriminate | reflexivity].
Defined.

(** ** The base-address table *)

Lemma ensures_ret {A} (a : A) (P : A -> Prop) : P a -> ensures (ret a) P.
Proof. intros Ha h. exact Ha. Qed.

Lemma ensures_undefined {A} (P : A -> Prop) : ensures undefined P.
Proof. intros h. exact I. Qed.

Lemma ensures_bind {A B} (m : M A) (k : A -> M B) (Q : B -> Prop) :
  (forall a, ensures (k a) Q) -> ensures (bind m k) Q.
Proof.
  intros Hk h. unfold bind. destruct (m h) as [[a h1] |]; [| exact I].
  apply Hk.
Qed.

Ltac ensures_go :=
  repeat match goal with
         | |- ensures undefined _ => apply ensures_undefined
         | |- ensures (bind _ _) _ => apply ensures_bind; intros
         | |- ensures (ret _) _ => apply ensures_ret
         | |- ensures (if ?b then _ else _) _ => destruct b
         | |- ensures (match ?x with _ => _ end) _ => destruct x
         end.

Lemma keeps_geometry_same ctx e : keeps_geometry ctx (e, Some ctx).
Proof. exists ctx. now repeat split. Qed.

Lemma keeps_geometry_toggle ctx flag on e :
  keeps_geometry ctx (e, Some (toggle_flag ctx flag on)).
Proof. eexists. split; [reflexivity |]. now destruct on. Qed.

Lemma keeps_geometry_backlight ctx on e :
  keeps_geometry ctx (e, Some (set_backlight ctx on)).
Proof. eexists. split; [reflexivity |]. now repeat split. Qed.

Create HintDb geometry.
#[local] Hint Resolve keeps_geometry_same keeps_geometry_toggle
  keeps_geometry_backlight : geometry.

(** No public operation touches the table or the dimensions. *)
Lemma run_keeps_geometry (bus_write : history -> Z -> bool)
      (c : call) (ctx : i2clcd_ctx) :
  ensures (run bus_write c (Some ctx)) (keeps_geometry ctx).
Proof.
  destruct c; cbn [run];
    unfold i2clcd_clear, i2clcd_clear_line, i2clcd_home, i2clcd_display,
      i2clcd_set_cursor, i2clcd_cursor, i2clcd_blink, i2clcd_putc,
      i2clcd_printf, i2clcd_puts, i2clcd_set_line, i2clcd_backlight,
      i2clcd_create_char, send_display_ctrl;
    ensures_go; cbn [fst]; auto with geometry.
Qed.

Lemma run_all_keeps_table (bus_write : history -> Z -> bool)
      (cs : list call) :
  forall ctx, ensures (run_all bus_write cs (Some ctx))
                      (fun hd => exists ctx', hd = Some ctx' /\
                                   line_addr ctx' = line_addr ctx).
Proof.
  induction cs as [| c cs IH]; intros ctx.
  - apply ensures_ret. now exists ctx.
  - cbn [run_all]. intros h. unfold bind.
    pose proof (run_keeps_geometry bus_write c ctx h) as Hc.
    destruct (run bus_write c (Some ctx) h) as [[[e hd] h1] |]; [| exact I].
    destruct Hc as (ctx1 & Hhd & Htab & _). cbn [snd] in Hhd. subst hd.
    pose proof (IH ctx1 h1) as Hrest.
    destruct (run_all bus_write cs (Some ctx1) h1) as [[hd2 h2] |]; [| exact I].
    destruct Hrest as (ctx2 & -> & Htab2). exists ctx2.
    split; [reflexivity | congruence].
Qed.

(** C10. A session returned successfully by [i2clcd_open] or
    [i2clcd_init], whatever the size preset or custom dimensions, has the
    base-address table 0x00, 0x40, 0x14, 0x54 for rows 0 to 3; after any
    sequence of public operations that returns, the session still has
    that table; and a session of the 16x2 preset has two rows, addressed
    on the wire with set-DDRAM-address 0x80 + col for row 0 and
    0x80 + 0x40 + col for row 1. *)
Theorem row_table_fixed
        (bus_write : history -> Z -> bool)
        (sys_calloc : bool) (sys_open : string -> Z) (sys_ioctl : Z -> Z -> Z)
        (cfg : i2clcd_config_t) (handle : bool) (ctx : i2clcd_ctx)
        (Hret : i2clcd_open sys_calloc sys_open sys_ioctl (Some cfg) handle
                  = (I2CLCD_OK, Some ctx) \/
                exists h h',
                  i2clcd_init bus_write sys_calloc sys_open sys_ioctl
                              (Some cfg) handle h
                  = Some ((I2CLCD_OK, Some ctx), h')) :
  line_addr ctx = [0x00; 0x40; 0x14; 0x54] /\
  (forall cs h,
     match run_all bus_write cs (Some ctx) h with
     | Some (Some ctx', _) => line_addr ctx' = [0x00; 0x40; 0x14; 0x54]
     | Some (None, _) => False
     | None => True
     end) /\
  (cfg_size cfg = I2CLCD_16X2 ->
   rows ctx = 2 /\
   (reliable bus_write -> forall col h, 0 <= col < cols ctx ->
      i2clcd_set_cursor bus_write (Some ctx) col 0 h
        = Some ((I2CLCD_OK, Some ctx),
                h ++ byte_frame false (backlight ctx) (0x80 + col)) /\
      i2clcd_set_cursor bus_write (Some ctx) col 1 h
        = Some ((I2CLCD_OK, Some ctx),
                h ++ byte_frame false (backlight ctx) (0x80 + 0x40 + col)))).
Proof.
  assert (Hopen : i2clcd_open sys_calloc sys_open sys_ioctl (Some cfg) handle
                  = (I2CLCD_OK, Some ctx)).
  { destruct Hret as [H | (h & h' & H)]; [exact H |].
    now apply i2clcd_init_ok_inv in H. }
  destruct (i2clcd_open_ok_inv _ _ _ _ _ _ Hopen)
    as (cfg' & c & r & [= <-] & _ & Hctx & Hdims).
  assert (Htab : line_addr ctx = [0x00; 0x40; 0x14; 0x54])
    by (subst ctx; reflexivity).
  split; [exact Htab |]. split.
  - intros cs h. pose proof (run_all_keeps_table bus_write cs ctx h) as H.
    destruct (run_all bus_write cs (Some ctx) h) as [[[ctx' |] h'] |].
    + destruct H as (ctx2 & [= <-] & E). congruence.
    + destruct H as (ctx2 & [=] & _).
    + exact I.
  - intros Hsize. unfold I2CLCD_16X2, I2CLCD_20X4, I2CLCD_CUSTOM in *.
    destruct Hdims as [(_ & -> & ->) | [(Hs & _) | (Hs & _)]];
      try (rewrite Hsize in Hs; discriminate).
    split; [subst ctx; reflexivity |].
    intros Hbus col h Hcol.
    assert (Hc : cols ctx = 16) by (subst ctx; reflexivity).
    assert (Hr : rows ctx = 2) by (subst ctx; reflexivity).
    split.
    + rewrite (set_cursor_reliable bus_write ctx col 0 0x00 h Hbus)
        by (rewrite ?Hr, ?Htab; try lia; reflexivity).
      rewrite u8_byte by lia. rewrite ddram_cmd_add by lia. reflexivity.
    + rewrite (set_cursor_reliable bus_write ctx col 1 0x40 h Hbus)
        by (rewrite ?Hr, ?Htab; try lia; reflexivity).
      rewrite u8_byte by lia. rewrite ddram_cmd_add by lia.
      now rewrite Z.add_assoc.
Qed.

Lemma row_table_fixed_witness :
  line_addr session_16x2 = [0x00; 0x40; 0x14; 0x54] /\
  i2clcd_set_cursor bus_good (Some session_16x2) 3 1 []
    = Some ((I2CLCD_OK, Some session_16x2),
            [] ++ byte_frame false (backlight session_16x2) (0x80 + 0x40 + 3)).
Proof.
  destruct (row_table_fixed bus_good true open_fd3 ioctl_ok config_16x2 true
              session_16x2 (or_introl eq_refl))
    as (Htab & _ & H16).
  split; [exact Htab |].
  destruct (H16 eq_refl) as (_ & Hcur).
  apply (Hcur (fun _ _ => eq_refl) 3 []). split; [discriminate | reflexivity].
Defined.


(** * Further properties of the driver *)

(** ** Error strings *)

(** X1. [i2clcd_strerror] gives every error code of the enumeration its
    own message, none of them the fallback, and gives the fallback
    [Unknown error] for every other [int] above the least one, that is
    for every [z] above 0 or below -6 with [-2147483648 < z]; at the least
    [int] the negation [-err] overflows and the call is undefined. *)
Theorem strerror_table (z : Z) :
  (forall e, exists msg,
     i2clcd_strerror (err_code e) = Some msg /\
     msg <> "Unknown error"%string /\
     (forall e', i2clcd_strerror (err_code e') = Some msg -> e' = e)) /\
  (-2147483648 < z -> (z < -6 \/ 0 < z) ->
   i2clcd_strerror z = Some "Unknown error"%string) /\
  i2clcd_strerror (-2147483648) = None.
Proof.
  split; [| split; [| reflexivity]].
  - intros e. destruct e; eexists; (split; [reflexivity |]);
      (split; [discriminate |]); intros e' H; destruct e';
      try reflexivity; discriminate.
  - intros Hmin Hout. unfold i2clcd_strerror.
    replace (z =? -2147483648) with false by (symmetry; apply Z.eqb_neq; lia).
    cbv zeta. change (Z.of_nat (List.length error_strings)) with 7.
    destruct Hout as [Hlow | Hpos].
    + replace (- z >=? 7) with true by (symmetry; apply geb_true; lia).
      now rewrite orb_true_r.
    + replace (- z <? 0) with true by (symmetry; apply Z.ltb_lt; lia).
      reflexivity.
Qed.

Lemma strerror_table_witness :
  i2clcd_strerror 1 = Some "Unknown error"%string /\
  i2clcd_strerror (-7) = Some "Unknown error"%string.
Proof.
  destruct (strerror_table 1) as (_ & Hpos & _).
  destruct (strerror_table (-7)) as (_ & Hneg & _).
  split.
  - apply Hpos; [reflexivity | right; reflexivity].
  - apply Hneg; [reflexivity | left; reflexivity].
Defined.

(** ** Opening and initializing *)

Lemma i2clcd_open_fail_none
      (sys_calloc : bool) (sys_open : string -> Z) (sys_ioctl : Z -> Z -> Z)
      (config : option i2clcd_config_t) (handle : bool) :
  fst (i2clcd_open sys_calloc sys_open sys_ioctl config handle) <> I2CLCD_OK ->
  snd (i2clcd_open sys_calloc sys_open sys_ioctl config handle) = None.
Proof.
  unfold i2clcd_open. intros H.
  destruct config as [cfg |]; [| reflexivity].
  destruct handle; [| reflexivity].
  destruct sys_calloc; [| reflexivity]. cbn [negb] in *.
  destruct (cfg_size cfg =? I2CLCD_16X2);
    [| destruct (cfg_size cfg =? I2CLCD_20X4);
       [| destruct (cfg_size cfg =? I2CLCD_CUSTOM); [| reflexivity]]];
    destruct (sys_open (cfg_i2c_device cfg) <? 0); try reflexivity;
    destruct (sys_ioctl _ _ <? 0); try reflexivity;
    cbn in H; congruence.
Qed.



(** X3. When [i2clcd_open] fails, [i2clcd_init] returns the same error,
    stores no session and puts nothing on the bus: not even the power-on
    delay is taken. *)
Theorem init_passes_open_failure
        (bus_write : history -> Z -> bool)
        (sys_calloc : bool) (sys_open : string -> Z) (sys_ioctl : Z -> Z -> Z)
        (config : option i2clcd_config_t) (handle : bool) (h : history)
        (Hfail : fst (i2clcd_open sys_calloc sys_open sys_ioctl config handle)
                 <> I2CLCD_OK) :
  i2clcd_init bus_write sys_calloc sys_open sys_ioctl config handle h
    = Some ((fst (i2clcd_open sys_calloc sys_open sys_ioctl config handle),
             None), h).
Proof.
  pose proof (i2clcd_open_fail_none _ _ _ _ _ Hfail) as Hnone.
  unfold i2clcd_init.
  destruct (i2clcd_open sys_calloc sys_open sys_ioctl config handle)
    as [e hd]. cbn [fst snd] in *. subst hd.
  destruct e; try reflexivity. congruence.
Qed.

Lemma init_passes_open_failure_witness :
  i2clcd_init bus_good true open_fd3 (fun _ _ => -1) (Some config_16x2) true []
    = Some ((I2CLCD_ERR_IOCTL, None), []).
Proof.
  apply (init_passes_open_failure bus_good true open_fd3 (fun _ _ => -1)
           (Some config_16x2) true []).
  discriminate.
Defined.

(** ** What a failing bus does to an operation *)

Lemma play_app (bus_write : history -> Z -> bool) (s1 s2 : history) :
  forall h,
    play bus_write (s1 ++ s2) h
    = let '(ok, h1) := play bus_write s1 h in
      if ok then play bus_write s2 h1 else (false, h1).
Proof.
  induction s1 as [| e s1 IH]; intros h; [reflexivity |].
  destruct e as [b | d]; cbn [app play].
  - destruct (bus_write h b); [apply IH | reflexivity].
  - apply IH.
Qed.

Lemma play_reliable (bus_write : history -> Z -> bool) (s : history) :
  reliable bus_write -> forall h, play bus_write s h = (true, h ++ s).
Proof.
  intros Hbus. induction s as [| e s IH]; intros h; cbn [play].
  - now rewrite app_nil_r.
  - destruct e as [b | d]; rewrite ?Hbus, IH, <- app_assoc; reflexivity.
Qed.

Lemma accepted_nil bus_write h : accepted bus_write h [].
Proof. intros pre b post E. destruct pre; discriminate. Qed.

Lemma accepted_cons_delay bus_write h d s :
  accepted bus_write (h ++ [EvDelay d]) s ->
  accepted bus_write h (EvDelay d :: s).
Proof.
  intros H pre b post E. destruct pre as [| e pre]; [discriminate |].
  injection E as <- E. rewrite <- (H pre b post E).
  now rewrite <- app_assoc.
Qed.

Lemma accepted_cons_write bus_write h w s :
  bus_write h w = true ->
  accepted bus_write (h ++ [EvWrite w]) s ->
  accepted bus_write h (EvWrite w :: s).
Proof.
  intros Hw H pre b post E. destruct pre as [| e pre].
  - injection E as <- _. now rewrite app_nil_r.
  - injection E as <- E. rewrite <- (H pre b post E).
    now rewrite <- app_assoc.
Qed.

(** A run of [play] either went through, every write accepted, or stopped
    at the first refused write. *)
Lemma play_cases (bus_write : history -> Z -> bool) (s : history) :
  forall h,
    (play bus_write s h = (true, h ++ s) /\ accepted bus_write h s) \/
    (exists pre b post,
       s = pre ++ EvWrite b :: post /\
       accepted bus_write h pre /\
       bus_write (h ++ pre) b = false /\
       play bus_write s h = (false, h ++ pre ++ [EvWrite b])).
Proof.
  induction s as [| e s IH]; intros h.
  - left. cbn. rewrite app_nil_r. split; [reflexivity | apply accepted_nil].
  - destruct e as [w | d]; cbn [play].
    + destruct (bus_write h w) eqn:Hw.
      * destruct (IH (h ++ [EvWrite w]))
          as [[E Hacc] | (pre & b & post & -> & Hacc & Hb & E)].
        -- left. rewrite E, <- app_assoc. split; [reflexivity |].
           now apply accepted_cons_write.
        -- right. exists (EvWrite w :: pre), b, post.
           split; [reflexivity |].
           split; [now apply accepted_cons_write |].
           split; [now rewrite <- app_assoc in Hb |].
           rewrite E, <- app_assoc. reflexivity.
      * right. exists [], w, s. split; [reflexivity |].
        split; [apply accepted_nil |].
        split; [now rewrite app_nil_r | reflexivity].
    + destruct (IH (h ++ [EvDelay d]))
        as [[E Hacc] | (pre & b & post & -> & Hacc & Hb & E)].
      * left. rewrite E, <- app_assoc. split; [reflexivity |].
        now apply accepted_cons_delay.
      * right. exists (EvDelay d :: pre), b, post.
        split; [reflexivity |].
        split; [now apply accepted_cons_delay |].
        split; [now rewrite <- app_assoc in Hb |].
        rewrite E, <- app_assoc. reflexivity.
Qed.

Section Plays.

Variable bus_write : history -> Z -> bool.

Lemma bind_plays {B} (m : M Z) (k : Z -> M B) (s h : history) :
  (forall h0, m h0 = let '(ok, h') := play bus_write s h0 in
                     Some (if ok then 0 else -1, h')) ->
  bind m k h = let '(ok, h') := play bus_write s h in
               k (if ok then 0 else -1) h'.
Proof.
  intros Hm. unfold bind. rewrite Hm.
  now destruct (play bus_write s h) as [[|] h'].
Qed.

Lemma i2c_write_byte_plays ctx b h :
  i2clcd_i2c_write_byte bus_write ctx b h
  = let '(ok, h') := play bus_write [EvWrite b] h in
    Some (if ok then 0 else -1, h').
Proof.
  unfold i2clcd_i2c_write_byte. cbn [play].
  now destruct (bus_write h b).
Qed.

Lemma write_nibble_plays ctx n rs h :
  i2clcd_write_nibble bus_write ctx n rs h
  = let '(ok, h') := play bus_write
                       (nibble_pulse rs (backlight ctx) (Z.land n 0xF0)) h in
    Some (if ok then 0 else -1, h').
Proof.
  unfold i2clcd_write_nibble.
  pose proof (nibble_word_eq n rs (backlight ctx)) as E. cbv zeta in E.
  rewrite E. unfold nibble_pulse, bind, i2clcd_i2c_write_byte,
    i2clcd_delay_us, emit, ret. cbn [play].
  change PCF8574.PIN_EN with 4.
  destruct (bus_write h _); cbn [Z.ltb Z.compare]; [| reflexivity].
  change HD44780.DELAY_ENABLE_US with 1.
  destruct (bus_write _ _); reflexivity.
Qed.

Lemma write_byte_plays ctx b rs h :
  i2clcd_write_byte bus_write ctx b rs h
  = let '(ok, h') := play bus_write (byte_frame rs (backlight ctx) b) h in
    Some (if ok then 0 else -1, h').
Proof.
  unfold i2clcd_write_byte, byte_frame.
  rewrite (bind_plays _ _ _ _ (write_nibble_plays ctx _ rs)), play_app.
  rewrite land_F0_idem.
  destruct (play bus_write _ h) as [[|] h1]; cbn [Z.ltb Z.compare];
    [| reflexivity].
  rewrite write_nibble_plays, land_F0_idem. reflexivity.
Qed.

Lemma command_plays ctx c h :
  i2clcd_command bus_write ctx c h
  = let '(ok, h') := play bus_write (byte_frame false (backlight ctx) c) h in
    Some (if ok then 0 else -1, h').
Proof. apply write_byte_plays. Qed.

Lemma data_plays ctx d h :
  i2clcd_data bus_write ctx d h
  = let '(ok, h') := play bus_write (byte_frame true (backlight ctx) d) h in
    Some (if ok then 0 else -1, h').
Proof. apply write_byte_plays. Qed.

End Plays.

Section PlaysLoops.

Variable bus_write : history -> Z -> bool.

Lemma bind_plays_err {B} (m : M i2clcd_err_t) (k : i2clcd_err_t -> M B)
      (s h : history) :
  (forall h0, m h0 = let '(ok, h') := play bus_write s h0 in
                     Some (if ok then I2CLCD_OK else I2CLCD_ERR_WRITE, h')) ->
  bind m k h = let '(ok, h') := play bus_write s h in
               k (if ok then I2CLCD_OK else I2CLCD_ERR_WRITE) h'.
Proof.
  intros Hm. unfold bind. rewrite Hm.
  now destruct (play bus_write s h) as [[|] h'].
Qed.

Lemma clear_line_loop_plays ctx n :
  forall h,
    clear_line_loop bus_write ctx n h
    = let '(ok, h') :=
        play bus_write
             (flat_map (byte_frame true (backlight ctx)) (repeat 32 n)) h in
      Some (if ok then I2CLCD_OK else I2CLCD_ERR_WRITE, h').
Proof.
  induction n as [| n IH]; intros h; [reflexivity |].
  cbn [clear_line_loop repeat flat_map].
  rewrite (bind_plays _ _ _ _ _ (data_plays bus_write ctx _)), play_app.
  change (char_code " ") with 32.
  destruct (play bus_write _ h) as [[|] h1]; cbn [Z.ltb Z.compare];
    [apply IH | reflexivity].
Qed.

Lemma puts_loop_plays ctx str :
  forall h,
    puts_loop bus_write ctx str h
    = let '(ok, h') :=
        play bus_write
             (flat_map (byte_frame true (backlight ctx)) (c_bytes str)) h in
      Some (if ok then I2CLCD_OK else I2CLCD_ERR_WRITE, h').
Proof.
  induction str as [| c str IH]; intros h; [reflexivity |].
  cbn [puts_loop c_bytes]. destruct (char_code c =? 0); [reflexivity |].
  cbn [flat_map].
  rewrite (bind_plays _ _ _ _ _ (data_plays bus_write ctx _)), play_app.
  destruct (play bus_write _ h) as [[|] h1]; cbn [Z.ltb Z.compare];
    [apply IH | reflexivity].
Qed.

Lemma set_line_loop_plays ctx text len n :
  forall i h,
    set_line_loop bus_write ctx text len i n h
    = let '(ok, h') :=
        play bus_write
             (flat_map (byte_frame true (backlight ctx))
                (map (fun j => if (j <? len)%nat
                               then char_code (char_at text j) else 32)
                     (seq i n))) h in
      Some (if ok then I2CLCD_OK else I2CLCD_ERR_WRITE, h').
Proof.
  induction n as [| n IH]; intros i h; [reflexivity |].
  cbn [set_line_loop seq map flat_map].
  rewrite (bind_plays _ _ _ _ _ (data_plays bus_write ctx _)), play_app.
  replace (char_code (if (i <? len)%nat then char_at text i else " "%char))
    with (if (i <? len)%nat then char_code (char_at text i) else 32)
    by (now destruct (i <? len)%nat).
  destruct (play bus_write _ h) as [[|] h1]; cbn [Z.ltb Z.compare];
    [apply IH | reflexivity].
Qed.

Lemma create_char_loop_plays ctx l rest :
  forall pre h,
    create_char_loop bus_write ctx (pre ++ l ++ rest) (List.length pre)
                     (List.length l) h
    = let '(ok, h') :=
        play bus_write (flat_map (byte_frame true (backlight ctx)) l) h in
      Some (if ok then I2CLCD_OK else I2CLCD_ERR_WRITE, h').
Proof.
  induction l as [| x l IH]; intros pre h; [reflexivity |].
  cbn [List.length create_char_loop flat_map].
  rewrite nth_error_app2, Nat.sub_diag by lia. cbn [app nth_error].
  rewrite (bind_plays _ _ _ _ _ (data_plays bus_write ctx _)), play_app.
  destruct (play bus_write _ h) as [[|] h1]; cbn [Z.ltb Z.compare];
    [| reflexivity].
  replace (pre ++ x :: l ++ rest) with ((pre ++ [x]) ++ l ++ rest)
    by (now rewrite <- app_assoc).
  replace (S (List.length pre)) with (List.length (pre ++ [x]))
    by (rewrite length_app; cbn; lia).
  apply IH.
Qed.

End PlaysLoops.

Lemma bus_good_reliable : reliable bus_good.
Proof. intros h b. reflexivity. Qed.

(** With fewer than 8 pattern bytes the walk of [i2clcd_create_char]
    reads past the end of the pattern on a reliable bus. *)
Lemma create_char_loop_short ctx charmap n :
  forall i h,
    (i <= List.length charmap < i + n)%nat ->
    create_char_loop bus_good ctx charmap i n h = None.
Proof.
  induction n as [| n IH]; intros i h Hi; [lia |].
  cbn [create_char_loop].
  destruct (nth_error charmap i) as [x |] eqn:E; [| reflexivity].
  assert (i < List.length charmap)%nat
    by (apply nth_error_Some; congruence).
  erewrite bind_run by (apply data_ok, bus_good_reliable).
  cbn [Z.ltb Z.compare]. apply IH. lia.
Qed.

Lemma create_char_loop_short_any bus_write ctx charmap n :
  forall i h,
    (i <= List.length charmap < i + n)%nat ->
    match create_char_loop bus_write ctx charmap i n h with
    | Some (e, _) => e = I2CLCD_ERR_WRITE
    | None => True
    end.
Proof.
  induction n as [| n IH]; intros i h Hi; [lia |].
  cbn [create_char_loop].
  destruct (nth_error charmap i) as [x |] eqn:E; [| exact I].
  assert (i < List.length charmap)%nat
    by (apply nth_error_Some; congruence).
  unfold bind at 1.
  destruct (i2clcd_data bus_write ctx x h) as [[r h1] |]; [| exact I].
  destruct (r <? 0); [reflexivity |]. apply IH. lia.
Qed.

Lemma set_cursor_plays bus_write ctx col row h :
  i2clcd_set_cursor bus_write (Some ctx) col row h
  = if (row >=? rows ctx) || (col >=? cols ctx)
    then Some ((I2CLCD_ERR_RANGE, Some ctx), h)
    else match nth_error (line_addr ctx) (Z.to_nat row) with
         | None => None
         | Some base =>
           truncated bus_write
             (byte_frame false (backlight ctx)
                (u8 (Z.lor HD44780.CMD_SET_DDRAM (u8 (base + col)))))
             I2CLCD_OK (Some ctx) h
         end.
Proof.
  unfold i2clcd_set_cursor.
  destruct ((row >=? rows ctx) || (col >=? cols ctx)); [reflexivity |].
  destruct (nth_error (line_addr ctx) (Z.to_nat row)) as [base |];
    [| reflexivity].
  rewrite (bind_plays _ _ _ _ _ (command_plays bus_write ctx _)).
  unfold truncated.
  now destruct (play bus_write _ h) as [[|] h1].
Qed.

Ltac script_error E :=
  right; exists [], E; eexists; split;
  [ intros bus_write h; reflexivity
  | split; [discriminate | intros _; split; reflexivity] ].

Ltac script_ok S C :=
  right; exists S, I2CLCD_OK, C; split;
  [ | split; [discriminate | intros H; exfalso; apply H; reflexivity] ].

Lemma clear_scripted ctx : script_or_undefined Clear ctx.
Proof.
  script_ok (byte_frame false (backlight ctx) HD44780.CMD_CLEAR
             ++ [EvDelay HD44780.DELAY_CLEAR_US]) ctx.
  intros bus_write h. cbn [run]. unfold i2clcd_clear, truncated.
  rewrite (bind_plays _ _ _ _ _ (command_plays bus_write ctx _)), play_app.
  now destruct (play bus_write _ h) as [[|] h1].
Qed.

Lemma home_scripted ctx : script_or_undefined Home ctx.
Proof.
  script_ok (byte_frame false (backlight ctx) HD44780.CMD_HOME
             ++ [EvDelay HD44780.DELAY_CLEAR_US]) ctx.
  intros bus_write h. cbn [run]. unfold i2clcd_home, truncated.
  rewrite (bind_plays _ _ _ _ _ (command_plays bus_write ctx _)), play_app.
  now destruct (play bus_write _ h) as [[|] h1].
Qed.

Lemma send_display_ctrl_plays bus_write ctx h :
  send_display_ctrl bus_write ctx h
  = truncated bus_write
      (byte_frame false (backlight ctx)
         (u8 (Z.lor HD44780.CMD_DISPLAY_CTRL (display_ctrl ctx))))
      I2CLCD_OK (Some ctx) h.
Proof.
  unfold send_display_ctrl, i2clcd_update_display_ctrl, truncated.
  rewrite (bind_plays _ _ _ _ _ (command_plays bus_write ctx _)).
  now destruct (play bus_write _ h) as [[|] h1].
Qed.

Lemma toggles_scripted ctx on :
  script_or_undefined (Display on) ctx /\
  script_or_undefined (Cursor on) ctx /\
  script_or_undefined (Blink on) ctx.
Proof.
  repeat split.
  - script_ok (byte_frame false
                 (backlight (toggle_flag ctx HD44780.DISPLAY_ON on))
                 (u8 (Z.lor HD44780.CMD_DISPLAY_CTRL
                        (display_ctrl (toggle_flag ctx HD44780.DISPLAY_ON on)))))
              (toggle_flag ctx HD44780.DISPLAY_ON on).
    intros bus_write h. apply send_display_ctrl_plays.
  - script_ok (byte_frame false
                 (backlight (toggle_flag ctx HD44780.CURSOR_ON on))
                 (u8 (Z.lor HD44780.CMD_DISPLAY_CTRL
                        (display_ctrl (toggle_flag ctx HD44780.CURSOR_ON on)))))
              (toggle_flag ctx HD44780.CURSOR_ON on).
    intros bus_write h. apply send_display_ctrl_plays.
  - script_ok (byte_frame false
                 (backlight (toggle_flag ctx HD44780.BLINK_ON on))
                 (u8 (Z.lor HD44780.CMD_DISPLAY_CTRL
                        (display_ctrl (toggle_flag ctx HD44780.BLINK_ON on)))))
              (toggle_flag ctx HD44780.BLINK_ON on).
    intros bus_write h. apply send_display_ctrl_plays.
Qed.

Lemma set_cursor_scripted ctx col row :
  script_or_undefined (SetCursor col row) ctx.
Proof.
  unfold script_or_undefined, scripted. cbn [run].
  destruct ((row >=? rows ctx) || (col >=? cols ctx)) eqn:Hrange.
  - right. exists [], I2CLCD_ERR_RANGE, ctx. split.
    + intros bus_write h. now rewrite set_cursor_plays, Hrange.
    + split; [discriminate | intros _; split; reflexivity].
  - destruct (nth_error (line_addr ctx) (Z.to_nat row)) as [base |] eqn:Hbase.
    + right. eexists _, I2CLCD_OK, ctx. split.
      * intros bus_write h. rewrite set_cursor_plays, Hrange, Hbase.
        reflexivity.
      * split; [discriminate | intros H; exfalso; apply H; reflexivity].
    + left. split; [now rewrite set_cursor_plays, Hrange, Hbase |].
      intros bus_write h. now rewrite set_cursor_plays, Hrange, Hbase.
Qed.

Lemma putc_scripted ctx c : script_or_undefined (Putc c) ctx.
Proof.
  script_ok (byte_frame true (backlight ctx) (char_code c)) ctx.
  intros bus_write h. cbn [run]. unfold i2clcd_putc, truncated.
  rewrite (bind_plays _ _ _ _ _ (data_plays bus_write ctx _)).
  now destruct (play bus_write _ h) as [[|] h1].
Qed.

Lemma puts_plays bus_write ctx str h :
  i2clcd_puts bus_write (Some ctx) (Some str) h
  = truncated bus_write
      (flat_map (byte_frame true (backlight ctx)) (c_bytes str))
      I2CLCD_OK (Some ctx) h.
Proof.
  unfold i2clcd_puts, truncated.
  rewrite (bind_plays_err _ _ _ _ _ (puts_loop_plays bus_write ctx str)).
  now destruct (play bus_write _ h) as [[|] h1].
Qed.

Lemma puts_scripted ctx str : script_or_undefined (Puts str) ctx.
Proof.
  destruct str as [str |].
  - script_ok (flat_map (byte_frame true (backlight ctx)) (c_bytes str)) ctx.
    intros bus_write h. apply puts_plays.
  - script_error I2CLCD_ERR_INVALID_ARG.
Qed.

Lemma printf_scripted ctx fmt rendered :
  script_or_undefined (Printf fmt rendered) ctx.
Proof.
  destruct fmt as [fmt |].
  - script_ok (flat_map (byte_frame true (backlight ctx))
                 (c_bytes (string_prefix 127 rendered))) ctx.
    intros bus_write h. apply puts_plays.
  - script_error I2CLCD_ERR_INVALID_ARG.
Qed.

Lemma backlight_scripted ctx on : script_or_undefined (Backlight on) ctx.
Proof.
  script_ok [EvWrite (if on then PCF8574.PIN_BL else 0)] (set_backlight ctx on).
  intros bus_write h. cbn [run]. unfold i2clcd_backlight, truncated.
  rewrite (bind_plays _ _ _ _ _ (i2c_write_byte_plays bus_write _ _)).
  now destruct (play bus_write _ h) as [[|] h1].
Qed.

Lemma getters_scripted ctx on wc wr :
  script_or_undefined (BacklightGet on) ctx /\
  script_or_undefined (GetSize wc wr) ctx.
Proof.
  split.
  - destruct on.
    + script_ok (@nil event) ctx. intros bus_write h. reflexivity.
    + script_error I2CLCD_ERR_INVALID_ARG.
  - script_ok (@nil event) ctx. intros bus_write h. reflexivity.
Qed.

Lemma clear_line_scripted ctx line : script_or_undefined (ClearLine line) ctx.
Proof.
  unfold script_or_undefined, scripted. cbn [run]. unfold i2clcd_clear_line.
  destruct (line >=? rows ctx) eqn:Hrow.
  { right. exists [], I2CLCD_ERR_RANGE, ctx. split; [reflexivity |].
    split; [discriminate | intros _; split; reflexivity]. }
  destruct (0 >=? cols ctx) eqn:Hcol.
  { right. exists [], I2CLCD_ERR_RANGE, ctx. split.
    - intros bus_write h. unfold bind.
      rewrite set_cursor_plays, Hrow, Hcol. reflexivity.
    - split; [discriminate | intros _; split; reflexivity]. }
  destruct (nth_error (line_addr ctx) (Z.to_nat line)) as [base |] eqn:Hbase.
  - right.
    exists (byte_frame false (backlight ctx)
              (u8 (Z.lor HD44780.CMD_SET_DDRAM (u8 (base + 0))))
            ++ flat_map (byte_frame true (backlight ctx))
                 (repeat 32 (Z.to_nat (cols ctx)))),
      I2CLCD_OK, ctx.
    split; [| split; [discriminate | intros H; exfalso; apply H; reflexivity]].
    intros bus_write h. unfold bind at 1.
    rewrite set_cursor_plays, Hrow, Hcol, Hbase. cbn [orb].
    unfold truncated. rewrite play_app.
    destruct (play bus_write _ h) as [[|] h1]; cbn [err_is_ok negb];
      [| reflexivity].
    rewrite (bind_plays_err _ _ _ _ _ (clear_line_loop_plays bus_write ctx _)).
    now destruct (play bus_write _ h1) as [[|] h2].
  - left. split; [unfold bind; now rewrite set_cursor_plays, Hrow, Hcol, Hbase |].
    intros bus_write h. unfold bind.
    now rewrite set_cursor_plays, Hrow, Hcol, Hbase.
Qed.

Lemma set_line_scripted ctx line text :
  script_or_undefined (SetLine line text) ctx.
Proof.
  unfold script_or_undefined, scripted. cbn [run]. unfold i2clcd_set_line.
  destruct text as [text |].
  2: { right. exists [], I2CLCD_ERR_INVALID_ARG, ctx. split; [reflexivity |].
       split; [discriminate | intros _; split; reflexivity]. }
  destruct (line >=? rows ctx) eqn:Hrow.
  { right. exists [], I2CLCD_ERR_RANGE, ctx. split; [reflexivity |].
    split; [discriminate | intros _; split; reflexivity]. }
  destruct (0 >=? cols ctx) eqn:Hcol.
  { right. exists [], I2CLCD_ERR_RANGE, ctx. split.
    - intros bus_write h. unfold bind.
      rewrite set_cursor_plays, Hrow, Hcol. reflexivity.
    - split; [discriminate | intros _; split; reflexivity]. }
  destruct (nth_error (line_addr ctx) (Z.to_nat line)) as [base |] eqn:Hbase.
  - right.
    exists (byte_frame false (backlight ctx)
              (u8 (Z.lor HD44780.CMD_SET_DDRAM (u8 (base + 0))))
            ++ flat_map (byte_frame true (backlight ctx))
                 (padded_line text (Z.to_nat (cols ctx)))),
      I2CLCD_OK, ctx.
    split; [| split; [discriminate | intros H; exfalso; apply H; reflexivity]].
    intros bus_write h. unfold bind at 1.
    rewrite set_cursor_plays, Hrow, Hcol, Hbase. cbn [orb].
    unfold truncated. rewrite play_app.
    destruct (play bus_write _ h) as [[|] h1]; cbn [err_is_ok negb];
      [| reflexivity].
    cbv zeta.
    rewrite (bind_plays_err _ _ _ _ _
               (fun h0 => set_line_loop_plays bus_write ctx text _ _ 0%nat h0)).
    unfold padded_line.
    now destruct (play bus_write _ h1) as [[|] h2].
  - left. split; [unfold bind; now rewrite set_cursor_plays, Hrow, Hcol, Hbase |].
    intros bus_write h. unfold bind.
    now rewrite set_cursor_plays, Hrow, Hcol, Hbase.
Qed.

Lemma create_char_scripted ctx location charmap :
  script_or_undefined (CreateChar location charmap) ctx.
Proof.
  unfold script_or_undefined, scripted. cbn [run]. unfold i2clcd_create_char.
  destruct charmap as [charmap |].
  2: { right. exists [], I2CLCD_ERR_INVALID_ARG, ctx. split; [reflexivity |].
       split; [discriminate | intros _; split; reflexivity]. }
  destruct (location >? 7) eqn:Hloc.
  { right. exists [], I2CLCD_ERR_RANGE, ctx. split; [reflexivity |].
    split; [discriminate | intros _; split; reflexivity]. }
  destruct (Nat.le_gt_cases 8 (List.length charmap)) as [Hlen | Hlen].
  - right.
    exists (byte_frame false (backlight ctx)
              (u8 (Z.lor HD44780.CMD_SET_CGRAM (Z.shiftl location 3)))
            ++ flat_map (byte_frame true (backlight ctx)) (firstn 8 charmap)
            ++ byte_frame false (backlight ctx) HD44780.CMD_SET_DDRAM),
      I2CLCD_OK, ctx.
    split; [| split; [discriminate | intros H; exfalso; apply H; reflexivity]].
    intros bus_write h.
    rewrite (bind_plays _ _ _ _ _ (command_plays bus_write ctx _)).
    unfold truncated. rewrite play_app.
    destruct (play bus_write _ h) as [[|] h1]; cbn [Z.ltb Z.compare];
      [| reflexivity].
    assert (Hloop : forall h0,
              create_char_loop bus_write ctx charmap 0 8 h0
              = let '(ok, h') :=
                  play bus_write
                    (flat_map (byte_frame true (backlight ctx))
                       (firstn 8 charmap)) h0 in
                Some (if ok then I2CLCD_OK else I2CLCD_ERR_WRITE, h')).
    { intros h0.
      pose proof (create_char_loop_plays bus_write ctx (firstn 8 charmap)
                    (skipn 8 charmap) [] h0) as E.
      cbn [app List.length] in E.
      rewrite firstn_skipn, length_firstn, Nat.min_l in E by exact Hlen.
      exact E. }
    rewrite (bind_plays_err _ _ _ _ _ Hloop), play_app.
    destruct (play bus_write _ h1) as [[|] h2]; cbn [err_is_ok negb];
      [| reflexivity].
    rewrite (bind_plays _ _ _ _ _ (command_plays bus_write ctx _)).
    now destruct (play bus_write _ h2) as [[|] h3].
  - left. split.
    + erewrite bind_run by (apply command_ok, bus_good_reliable).
      cbn [Z.ltb Z.compare]. unfold bind at 1.
      rewrite create_char_loop_short by lia. reflexivity.
    + intros bus_write h. unfold bind at 1.
      destruct (i2clcd_command bus_write ctx _ h) as [[r h1] |]; [| exact I].
      destruct (r <? 0); [reflexivity |]. unfold bind at 1.
      pose proof (create_char_loop_short_any bus_write ctx charmap 8 0 h1)
        as Hloop.
      destruct (create_char_loop bus_write ctx charmap 0 8 h1)
        as [[e h2] |]; [| exact I].
      rewrite Hloop by lia. reflexivity.
Qed.

Lemma run_scripted (c : call) (ctx : i2clcd_ctx) : script_or_undefined c ctx.
Proof.
  destruct c.
  - exact (clear_scripted ctx).
  - exact (clear_line_scripted ctx line).
  - exact (home_scripted ctx).
  - exact (proj1 (toggles_scripted ctx on)).
  - exact (set_cursor_scripted ctx col row).
  - exact (proj1 (proj2 (toggles_scripted ctx visible))).
  - exact (proj2 (proj2 (toggles_scripted ctx blink))).
  - exact (putc_scripted ctx c).
  - exact (puts_scripted ctx str).
  - exact (printf_scripted ctx fmt rendered).
  - exact (set_line_scripted ctx line text).
  - exact (backlight_scripted ctx on).
  - exact (proj1 (getters_scripted ctx on true true)).
  - exact (create_char_scripted ctx location charmap).
  - exact (proj2 (getters_scripted ctx true want_cols want_rows)).
Qed.

(** The script of a call is what it does on a reliable bus. *)
Lemma scripted_reliable_run c ctx s e0 ctx' :
  scripted c ctx s e0 ctx' ->
  run bus_good c (Some ctx) [] = Some ((e0, Some ctx'), s).
Proof.
  intros Hs. rewrite Hs. unfold truncated.
  now rewrite (play_reliable bus_good s bus_good_reliable).
Qed.

(** X4. Take a call that is defined on a reliable bus, where it issues
    the events [s], returns [e0] and leaves the session [hd0].  On any
    bus, after any history, the same call either finds every write of [s]
    accepted, issues exactly [s] and returns [e0]; or it issues [s] up to
    and including the first write the bus refuses, nothing after it, and
    returns the write-failed error.  The session it leaves is [hd0] in
    both cases. *)
Theorem failure_truncates
        (bus_write : history -> Z -> bool) (c : call) (ctx : i2clcd_ctx)
        (e0 : i2clcd_err_t) (hd0 : option i2clcd_ctx) (s h : history)
        (Hdef : run bus_good c (Some ctx) [] = Some ((e0, hd0), s)) :
  (accepted bus_write h s /\
   run bus_write c (Some ctx) h = Some ((e0, hd0), h ++ s)) \/
  (exists pre b post,
     s = pre ++ EvWrite b :: post /\
     accepted bus_write h pre /\
     bus_write (h ++ pre) b = false /\
     run bus_write c (Some ctx) h
       = Some ((I2CLCD_ERR_WRITE, hd0), h ++ pre ++ [EvWrite b])).
Proof.
  destruct (run_scripted c ctx) as [[Hnone _] | (s' & e' & ctx' & Hs & _)];
    [congruence |].
  rewrite (scripted_reliable_run _ _ _ _ _ Hs) in Hdef.
  injection Hdef as <- <- <-.
  pose proof (Hs bus_write h) as Hrun. unfold truncated in Hrun.
  destruct (play_cases bus_write s' h)
    as [[E Hacc] | (pre & b & post & Es & Hacc & Hb & E)];
    rewrite E in Hrun.
  - left. split; assumption.
  - right. exists pre, b, post. repeat split; assumption.
Qed.

Lemma failure_truncates_witness :
  exists pre b post,
    byte_frame false true 0x01 ++ [EvDelay 1600]
      = pre ++ EvWrite b :: post /\
    i2clcd_clear (fun h _ => (List.length h <? 2)%nat) (Some session_16x2) []
      = Some ((I2CLCD_ERR_WRITE, Some session_16x2), [] ++ pre ++ [EvWrite b]).
Proof.
  destruct (failure_truncates (fun h _ => (List.length h <? 2)%nat) Clear
              session_16x2 I2CLCD_OK (Some session_16x2)
              (byte_frame false true 0x01 ++ [EvDelay 1600]) [] eq_refl)
    as [[Hacc _] | (pre & b & post & E & _ & _ & Hrun)].
  - exfalso.
    specialize (Hacc [EvWrite 0x0C; EvDelay 1] 0x08
                     (EvDelay 50 :: nibble_pulse false true 0x10
                        ++ [EvDelay 1600]) eq_refl).
    discriminate Hacc.
  - exists pre, b, post. split; assumption.
Defined.

(** X5. On any bus, when a public operation returns an error other than
    the write-failed error, it has put nothing on the bus and has left the
    session untouched, and it returns that same error on every bus: the
    arguments are checked before any traffic. *)
Theorem validation_before_traffic
        (bus_write : history -> Z -> bool) (c : call) (ctx : i2clcd_ctx)
        (e : i2clcd_err_t) (hd : option i2clcd_ctx) (h h' : history)
        (Hrun : run bus_write c (Some ctx) h = Some ((e, hd), h'))
        (Hnot_ok : e <> I2CLCD_OK) (Hnot_write : e <> I2CLCD_ERR_WRITE) :
  h' = h /\ hd = Some ctx /\
  forall bus_write' h2,
    run bus_write' c (Some ctx) h2 = Some ((e, Some ctx), h2).
Proof.
  destruct (run_scripted c ctx)
    as [[_ Hany] | (s & e0 & ctx' & Hs & _ & Hempty)].
  - specialize (Hany bus_write h). rewrite Hrun in Hany. contradiction.
  - pose proof (Hs bus_write h) as E. rewrite Hrun in E. unfold truncated in E.
    destruct (play_cases bus_write s h)
      as [[Ep _] | (pre & b & post & _ & _ & _ & Ep)]; rewrite Ep in E.
    + injection E as -> -> ->.
      destruct (Hempty Hnot_ok) as [-> ->].
      split; [now rewrite app_nil_r |]. split; [reflexivity |].
      intros bus_write' h2. now rewrite Hs.
    + injection E as -> _ _. contradiction.
Qed.

Lemma validation_before_traffic_witness :
  run bus_good (SetLine 2 (Some "ABC"%string)) (Some session_16x2)
      [EvDelay 1]
    = Some ((I2CLCD_ERR_RANGE, Some session_16x2), [EvDelay 1]).
Proof.
  destruct (validation_before_traffic bus_dead
              (SetLine 2 (Some "ABC"%string)) session_16x2 I2CLCD_ERR_RANGE
              (Some session_16x2) [] [] eq_refl) as (_ & _ & H);
    [discriminate | discriminate |].
  apply (H bus_good [EvDelay 1]).
Defined.

(** ** Every word on the wire *)

Lemma emits_ret {A} (P : event -> Prop) (Q : A -> Prop) (a : A) :
  Q a -> emits P Q (ret a).
Proof.
  intros Ha h. split; [exact Ha |]. exists []. now rewrite app_nil_r.
Qed.

Lemma emits_undefined {A} (P : event -> Prop) (Q : A -> Prop) :
  emits P Q undefined.
Proof. intros h. exact I. Qed.

Lemma emits_bind {A B} (P : event -> Prop) (Q : B -> Prop)
      (m : M A) (k : A -> M B) :
  emits P (fun _ => True) m -> (forall a, emits P Q (k a)) ->
  emits P Q (bind m k).
Proof.
  intros Hm Hk h. unfold bind. specialize (Hm h).
  destruct (m h) as [[a h1] |]; [| exact I].
  destruct Hm as (_ & s1 & -> & Hs1). specialize (Hk a (h ++ s1)).
  destruct (k a (h ++ s1)) as [[b h2] |]; [| exact I].
  destruct Hk as (Hb & s2 & -> & Hs2). split; [exact Hb |].
  exists (s1 ++ s2). split; [now rewrite app_assoc |].
  now apply Forall_app.
Qed.

Lemma emits_emit (P : event -> Prop) (e : event) :
  P e -> emits P (fun _ => True) (emit e).
Proof.
  intros He h. cbn. split; [exact I |]. exists [e]. split; [reflexivity |].
  now constructor.
Qed.

Lemma emits_weaken {A} (P : event -> Prop) (Q Q' : A -> Prop) (m : M A) :
  emits P Q m -> (forall a, Q a -> Q' a) -> emits P Q' m.
Proof.
  intros Hm HQ h. specialize (Hm h). destruct (m h) as [[a h1] |]; [| exact I].
  destruct Hm as (Ha & Hs). split; [now apply HQ | exact Hs].
Qed.

Lemma wire_ok_word (x : Z) (rs bl : bool) :
  wire_ok bl (EvWrite (Z.lor (Z.land x 0xF0) (ctl_bits rs bl))) /\
  wire_ok bl (EvWrite (Z.lor (Z.lor (Z.land x 0xF0) (ctl_bits rs bl)) 4)).
Proof.
  destruct (wire_word_byte x rs bl) as [R1 R2].
  destruct (wire_word_bits x rs bl) as (_ & B1 & _ & B3 & _).
  destruct (wire_word_en_bits x rs bl) as (_ & E1 & _ & E3 & _).
  split; cbn; repeat split; assumption || apply R1 || apply R2.
Qed.

Lemma wire_ok_baseline (bl : bool) :
  wire_ok bl (EvWrite (if bl then PCF8574.PIN_BL else 0)).
Proof. destruct bl; cbn; repeat split; discriminate. Qed.

Section Emits.

Variable bus_write : history -> Z -> bool.

Lemma emits_i2c_write_byte bl ctx b :
  wire_ok bl (EvWrite b) ->
  emits (wire_ok bl) (fun _ => True) (i2clcd_i2c_write_byte bus_write ctx b).
Proof.
  intros Hb h. unfold i2clcd_i2c_write_byte. split; [exact I |].
  exists [EvWrite b]. split; [reflexivity |]. now constructor.
Qed.

Lemma emits_delay_us bl us :
  0 < us -> emits (wire_ok bl) (fun _ => True) (i2clcd_delay_us us).
Proof. intros H. now apply emits_emit. Qed.

Lemma emits_write_nibble ctx n rs :
  emits (wire_ok (backlight ctx)) (fun _ => True)
        (i2clcd_write_nibble bus_write ctx n rs).
Proof.
  unfold i2clcd_write_nibble.
  pose proof (nibble_word_eq n rs (backlight ctx)) as E. cbv zeta in E.
  rewrite E. destruct (wire_ok_word n rs (backlight ctx)) as [W1 W2].
  apply emits_bind; [now apply emits_i2c_write_byte | intros r].
  destruct (r <? 0); [now apply emits_ret |].
  apply emits_bind; [now apply emits_delay_us | intros _].
  apply emits_bind; [now apply emits_i2c_write_byte | intros r'].
  destruct (r' <? 0); [now apply emits_ret |].
  apply emits_bind; [now apply emits_delay_us | intros _].
  now apply emits_ret.
Qed.

Lemma emits_write_byte ctx b rs :
  emits (wire_ok (backlight ctx)) (fun _ => True)
        (i2clcd_write_byte bus_write ctx b rs).
Proof.
  unfold i2clcd_write_byte.
  apply emits_bind; [apply emits_write_nibble | intros r].
  destruct (r <? 0); [now apply emits_ret | apply emits_write_nibble].
Qed.

Lemma emits_command ctx c :
  emits (wire_ok (backlight ctx)) (fun _ => True)
        (i2clcd_command bus_write ctx c).
Proof. apply emits_write_byte. Qed.

Lemma emits_data ctx d :
  emits (wire_ok (backlight ctx)) (fun _ => True)
        (i2clcd_data bus_write ctx d).
Proof. apply emits_write_byte. Qed.

Lemma emits_clear_line_loop ctx n :
  emits (wire_ok (backlight ctx)) (fun _ => True)
        (clear_line_loop bus_write ctx n).
Proof.
  induction n as [| n IH]; cbn [clear_line_loop]; [now apply emits_ret |].
  apply emits_bind; [apply emits_data | intros r].
  destruct (r <? 0); [now apply emits_ret | exact IH].
Qed.

Lemma emits_puts_loop ctx str :
  emits (wire_ok (backlight ctx)) (fun _ => True)
        (puts_loop bus_write ctx str).
Proof.
  induction str as [| c str IH]; cbn [puts_loop]; [now apply emits_ret |].
  destruct (char_code c =? 0); [now apply emits_ret |].
  apply emits_bind; [apply emits_data | intros r].
  destruct (r <? 0); [now apply emits_ret | exact IH].
Qed.

Lemma emits_set_line_loop ctx text len n :
  forall i, emits (wire_ok (backlight ctx)) (fun _ => True)
                  (set_line_loop bus_write ctx text len i n).
Proof.
  induction n as [| n IH]; intros i; cbn [set_line_loop];
    [now apply emits_ret |].
  apply emits_bind; [apply emits_data | intros r].
  destruct (r <? 0); [now apply emits_ret | apply IH].
Qed.

Lemma emits_create_char_loop ctx charmap n :
  forall i, emits (wire_ok (backlight ctx)) (fun _ => True)
                  (create_char_loop bus_write ctx charmap i n).
Proof.
  induction n as [| n IH]; intros i; cbn [create_char_loop];
    [now apply emits_ret |].
  destruct (nth_error charmap i); [| apply emits_undefined].
  apply emits_bind; [apply emits_data | intros r].
  destruct (r <? 0); [now apply emits_ret | apply IH].
Qed.

Lemma emits_set_cursor ctx col row :
  emits (wire_ok (backlight ctx)) (backlight_is (backlight ctx))
        (i2clcd_set_cursor bus_write (Some ctx) col row).
Proof.
  unfold i2clcd_set_cursor.
  destruct (_ || _); [apply emits_ret; now exists ctx |].
  destruct (nth_error _ _); [| apply emits_undefined].
  apply emits_bind; [apply emits_command | intros r].
  destruct (r <? 0); apply emits_ret; now exists ctx.
Qed.

Lemma emits_send_display_ctrl ctx :
  emits (wire_ok (backlight ctx)) (backlight_is (backlight ctx))
        (send_display_ctrl bus_write ctx).
Proof.
  unfold send_display_ctrl, i2clcd_update_display_ctrl.
  apply emits_bind; [apply emits_command | intros r].
  destruct (r <? 0); apply emits_ret; now exists ctx.
Qed.

Lemma emits_puts ctx str :
  emits (wire_ok (backlight ctx)) (backlight_is (backlight ctx))
        (i2clcd_puts bus_write (Some ctx) str).
Proof.
  unfold i2clcd_puts. destruct str as [str |];
    [| apply emits_ret; now exists ctx].
  apply emits_bind; [apply emits_puts_loop | intros e].
  apply emits_ret. now exists ctx.
Qed.

End Emits.

Ltac emits_step :=
  first
    [ apply emits_command
    | apply emits_data
    | apply emits_write_nibble
    | apply emits_clear_line_loop
    | apply emits_set_line_loop
    | apply emits_create_char_loop
    | apply emits_delay_us; reflexivity
    | apply emits_i2c_write_byte; apply wire_ok_baseline
    | eapply emits_weaken; [apply emits_set_cursor | intros; exact I] ].

Ltac emits_go :=
  repeat match goal with
         | |- emits _ _ undefined => apply emits_undefined
         | |- emits _ _ (ret _) => apply emits_ret
         | |- emits _ _ (bind _ _) => apply emits_bind; [emits_step | intros]
         | |- emits _ _ (if ?b then _ else _) => destruct b
         | |- emits _ _ (match ?x with _ => _ end) => destruct x
         end.

Lemma backlight_is_same ctx e : backlight_is (backlight ctx) (e, Some ctx).
Proof. now exists ctx. Qed.

Lemma run_emits (bus_write : history -> Z -> bool) (c : call)
      (ctx : i2clcd_ctx) :
  exists bl, emits (wire_ok bl) (backlight_is bl) (run bus_write c (Some ctx)).
Proof.
  destruct c; cbn [run];
    try (exists (backlight ctx);
         unfold i2clcd_clear, i2clcd_clear_line, i2clcd_home, i2clcd_putc,
           i2clcd_set_line, i2clcd_create_char, i2clcd_delay_us;
         emits_go; cbn [fst]; apply backlight_is_same).
  - eexists. apply emits_send_display_ctrl.
  - exists (backlight ctx). apply emits_set_cursor.
  - eexists. apply emits_send_display_ctrl.
  - eexists. apply emits_send_display_ctrl.
  - exists (backlight ctx). apply emits_puts.
  - exists (backlight ctx). unfold i2clcd_printf.
    destruct fmt; [apply emits_puts | apply emits_ret, backlight_is_same].
  - exists on. unfold i2clcd_backlight.
    change on with (backlight (set_backlight ctx on)) at 1 2.
    emits_go; apply (backlight_is_same (set_backlight ctx on)).
Qed.

(** X6. Whatever the bus does, every public operation only adds events to
    the history, and every word it writes is one byte with the read/write
    pin (bit 1) low and the backlight pin (bit 3) equal to the backlight
    flag of the session as the call leaves it; every delay is positive.
    The same holds for all the traffic of [i2clcd_init]. *)
Theorem every_word_well_formed
        (bus_write : history -> Z -> bool) (h : history) :
  (forall c ctx,
     match run bus_write c (Some ctx) h with
     | Some ((_, hd), h') =>
       exists ctx' sent, hd = Some ctx' /\ h' = h ++ sent /\
                         Forall (wire_ok (backlight ctx')) sent
     | None => True
     end) /\
  (forall sys_calloc sys_open sys_ioctl config handle,
     match i2clcd_init bus_write sys_calloc sys_open sys_ioctl config handle h
     with
     | Some ((_, hd), h') =>
       exists sent, h' = h ++ sent /\
         (sent = [] \/
          exists ctx', hd = Some ctx' /\
                       Forall (wire_ok (backlight ctx')) sent)
     | None => True
     end).
Proof.
  split.
  - intros c ctx. destruct (run_emits bus_write c ctx) as [bl Hrun].
    specialize (Hrun h).
    destruct (run bus_write c (Some ctx) h) as [[[e hd] h'] |]; [| exact I].
    destruct Hrun as ((ctx' & Hhd & <-) & sent & -> & Hsent).
    cbn [snd] in Hhd. now exists ctx', sent.
  - intros sys_calloc sys_open sys_ioctl config handle.
    unfold i2clcd_init.
    destruct (i2clcd_open sys_calloc sys_open sys_ioctl config handle)
      as [e hd].
    destruct (negb (err_is_ok e)).
    { cbn. exists []. split; [now rewrite app_nil_r | now left]. }
    destruct hd as [ctx |]; [| exact I].
    assert (Hinit :
      emits (wire_ok (backlight ctx))
            (fun res => exists ctx', snd res = Some ctx' /\
                                     backlight ctx' = backlight ctx)
        (i2clcd_delay_ms HD44780.DELAY_INIT_MS;;;
         _ <- i2clcd_i2c_write_byte bus_write ctx
                (if backlight ctx then PCF8574.PIN_BL else 0);;
         i2clcd_delay_ms 1;;;
         _ <- i2clcd_write_nibble bus_write ctx 48 false;;
         i2clcd_delay_ms 5;;;
         _ <- i2clcd_write_nibble bus_write ctx 48 false;;
         i2clcd_delay_us 150;;;
         _ <- i2clcd_write_nibble bus_write ctx 48 false;;
         i2clcd_delay_us 150;;;
         _ <- i2clcd_write_nibble bus_write ctx 32 false;;
         i2clcd_delay_us HD44780.DELAY_CMD_US;;;
         _ <- i2clcd_command bus_write ctx
                (Z.lor (Z.lor (Z.lor HD44780.CMD_FUNCTION_SET
                                     HD44780.MODE_4BIT) HD44780.LINES_2)
                       HD44780.DOTS_5X8);;
         _ <- i2clcd_command bus_write (set_display_ctrl ctx 0)
                HD44780.CMD_DISPLAY_CTRL;;
         _ <- i2clcd_command bus_write
                (set_entry_mode (set_display_ctrl ctx 0) HD44780.ENTRY_INC)
                (u8 (Z.lor HD44780.CMD_ENTRY_MODE
                       (entry_mode
                          (set_entry_mode (set_display_ctrl ctx 0)
                             HD44780.ENTRY_INC))));;
         _ <- i2clcd_command bus_write
                (set_display_ctrl
                   (set_entry_mode (set_display_ctrl ctx 0) HD44780.ENTRY_INC)
                   HD44780.DISPLAY_ON)
                (u8 (Z.lor HD44780.CMD_DISPLAY_CTRL
                       (display_ctrl
                          (set_display_ctrl
                             (set_entry_mode (set_display_ctrl ctx 0)
                                HD44780.ENTRY_INC) HD44780.DISPLAY_ON))));;
         ret (I2CLCD_OK,
              Some (set_display_ctrl
                      (set_entry_mode (set_display_ctrl ctx 0)
                         HD44780.ENTRY_INC) HD44780.DISPLAY_ON)))).
    { unfold i2clcd_delay_ms.
      repeat (apply emits_bind;
              [first [ apply emits_delay_us; reflexivity
                     | apply emits_i2c_write_byte; apply wire_ok_baseline
                     | apply emits_write_nibble
                     | apply (emits_command bus_write ctx)
                     | apply (emits_command bus_write (set_display_ctrl ctx 0))
                     | apply (emits_command bus_write
                                (set_entry_mode (set_display_ctrl ctx 0)
                                   HD44780.ENTRY_INC))
                     | apply (emits_command bus_write
                                (set_display_ctrl
                                   (set_entry_mode (set_display_ctrl ctx 0)
                                      HD44780.ENTRY_INC) HD44780.DISPLAY_ON)) ]
              | intros _]).
      apply emits_ret. eexists. split; reflexivity. }
    specialize (Hinit h). cbv zeta.
    match goal with
    | H : match ?m with _ => _ end |- match ?m' with _ => _ end =>
      change m' with m; destruct m as [[[e' hd'] h'] |]; [| exact I]
    end.
    destruct Hinit as ((ctx' & Hhd & Hbl) & sent & -> & Hsent).
    cbn [snd] in Hhd. exists sent. split; [reflexivity |]. right.
    exists ctx'. split; [exact Hhd | now rewrite Hbl].
Qed.

(** ** Nothing is lost on the wire *)

Lemma byte_bits_eq (b b' : Z) :
  0 <= b < 256 -> 0 <= b' < 256 ->
  (forall i, 0 <= i < 8 -> Z.testbit b i = Z.testbit b' i) -> b = b'.
Proof.
  intros Hb Hb' H. apply Z.bits_inj'. intros i Hi.
  destruct (Z.lt_ge_cases i 8) as [Hlt | Hge]; [apply H; lia |].
  now rewrite (small_high_bits b 8 i), (small_high_bits b' 8 i).
Qed.

(** The frame of a byte determines the byte and the register select. *)
Lemma byte_frame_inj (rs rs' bl : bool) (b b' : Z) :
  0 <= b < 256 -> 0 <= b' < 256 ->
  byte_frame rs bl b = byte_frame rs' bl b' -> b = b' /\ rs = rs'.
Proof.
  intros Hb Hb' E. unfold byte_frame, nibble_pulse in E.
  remember (Z.land b 0xF0) as hi eqn:Ehi.
  remember (Z.land b' 0xF0) as hi' eqn:Ehi'.
  remember (Z.land (Z.shiftl b 4) 0xF0) as lo eqn:Elo.
  remember (Z.land (Z.shiftl b' 4) 0xF0) as lo' eqn:Elo'.
  cbn [app] in E. injection E as _ E2 _ E4. subst hi hi' lo lo'.
  destruct (wire_word_bits b rs bl) as (R0 & _ & _ & _ & Rhi & _).
  destruct (wire_word_bits b' rs' bl) as (R0' & _ & _ & _ & Rhi' & _).
  destruct (wire_word_bits (Z.shiftl b 4) rs bl) as (_ & _ & _ & _ & Rlo & _).
  destruct (wire_word_bits (Z.shiftl b' 4) rs' bl)
    as (_ & _ & _ & _ & Rlo' & _).
  cbv zeta in *. rewrite E2 in R0, Rhi. rewrite E4 in Rlo.
  split; [| congruence].
  apply byte_bits_eq; [assumption | assumption |]. intros i Hi.
  destruct (Z.lt_ge_cases i 4) as [Hlow | Hhigh].
  - specialize (Rlo (i + 4) ltac:(lia)). specialize (Rlo' (i + 4) ltac:(lia)).
    rewrite Z.shiftl_spec in Rlo, Rlo' by lia.
    replace (i + 4 - 4) with i in Rlo, Rlo' by lia. congruence.
  - specialize (Rhi i ltac:(lia)). specialize (Rhi' i ltac:(lia)). congruence.
Qed.

(** X7. Transmission is lossless: on a bus that accepts every write, two
    calls of [i2clcd_write_byte] on the same session that leave the same
    words on the wire were given the same byte and the same
    register-select flag. *)
Theorem write_byte_lossless
        (bus_write : history -> Z -> bool) (Hbus : reliable bus_write)
        (ctx : i2clcd_ctx) (b b' : Z) (rs rs' : bool) (h : history)
        (Hb : 0 <= b < 256) (Hb' : 0 <= b' < 256)
        (Hsame : i2clcd_write_byte bus_write ctx b rs h
                 = i2clcd_write_byte bus_write ctx b' rs' h) :
  b = b' /\ rs = rs'.
Proof.
  rewrite !write_byte_ok in Hsame by exact Hbus.
  injection Hsame as E. apply app_inv_head in E.
  now apply (byte_frame_inj rs rs' (backlight ctx)).
Qed.

Lemma write_byte_lossless_witness : 0x41 = 0x41 /\ true = true.
Proof.
  apply (write_byte_lossless bus_good (fun _ _ => eq_refl) session_16x2
           0x41 0x41 true true []); [split | split |]; try reflexivity;
    discriminate.
Defined.

(** X8. On the two preset geometries the addressing is faithful: for a
    16x2 or 20x4 session and a bus that accepts every write, every cell
    (col, row) inside the display is addressed with a 7-bit DDRAM address,
    and two cells that make [i2clcd_set_cursor] put the same words on the
    wire are the same cell. *)
Theorem preset_addressing_injective
        (bus_write : history -> Z -> bool) (Hbus : reliable bus_write)
        (ctx : i2clcd_ctx) (col row col' row' : Z) (h : history)
        (Htab : line_addr ctx = [0x00; 0x40; 0x14; 0x54])
        (Hdims : (cols ctx = 16 /\ rows ctx = 2) \/
                 (cols ctx = 20 /\ rows ctx = 4))
        (Hcell : 0 <= col < cols ctx /\ 0 <= row < rows ctx)
        (Hcell' : 0 <= col' < cols ctx /\ 0 <= row' < rows ctx) :
  (exists addr,
     0 <= addr < 128 /\
     i2clcd_set_cursor bus_write (Some ctx) col row h
       = Some ((I2CLCD_OK, Some ctx),
               h ++ byte_frame false (backlight ctx) (0x80 + addr))) /\
  (i2clcd_set_cursor bus_write (Some ctx) col row h
   = i2clcd_set_cursor bus_write (Some ctx) col' row' h ->
   col = col' /\ row = row').
Proof.
  assert (Hbase : forall r, 0 <= r < rows ctx ->
            exists base,
              nth_error (line_addr ctx) (Z.to_nat r) = Some base /\
              ((r = 0 /\ base = 0x00) \/ (r = 1 /\ base = 0x40) \/
               (r = 2 /\ base = 0x14) \/ (r = 3 /\ base = 0x54))).
  { intros r Hr. rewrite Htab.
    assert (E : r = 0 \/ r = 1 \/ r = 2 \/ r = 3) by lia.
    destruct E as [-> | [-> | [-> | ->]]]; eexists; (split; [reflexivity |]);
      tauto. }
  destruct Hcell as [Hc Hr], Hcell' as [Hc' Hr'].
  destruct (Hbase row Hr) as (base & Hnth & Hb).
  destruct (Hbase row' Hr') as (base' & Hnth' & Hb').
  assert (Hsmall : 0 <= base + col < 128) by lia.
  assert (Hsmall' : 0 <= base' + col' < 128) by lia.
  assert (Eaddr : forall a, 0 <= a < 128 -> Z.lor 0x80 (u8 a) = 0x80 + a).
  { intros a Ha. rewrite u8_byte by lia. now apply ddram_cmd_add. }
  rewrite (set_cursor_reliable bus_write ctx col row base h Hbus)
    by (lia || assumption).
  rewrite (set_cursor_reliable bus_write ctx col' row' base' h Hbus)
    by (lia || assumption).
  rewrite !Eaddr by assumption. split.
  - exists (base + col). split; [exact Hsmall | reflexivity].
  - intros E. injection E as E. apply app_inv_head in E.
    assert (R : 0 <= 0x80 + (base + col) < 256) by lia.
    assert (R' : 0 <= 0x80 + (base' + col') < 256) by lia.
    destruct (byte_frame_inj _ _ _ _ _ R R' E) as [Eq _].
    destruct Hdims as [[Hcols Hrows] | [Hcols Hrows]];
      destruct Hb as [[? ?] | [[? ?] | [[? ?] | [? ?]]]];
      destruct Hb' as [[? ?] | [[? ?] | [[? ?] | [? ?]]]];
      subst; split; lia.
Qed.

Lemma preset_addressing_injective_witness :
  exists addr,
    0 <= addr < 128 /\
    i2clcd_set_cursor bus_good (Some session_20x4) 19 3 []
      = Some ((I2CLCD_OK, Some session_20x4),
              [] ++ byte_frame false (backlight session_20x4) (0x80 + addr)).
Proof.
  apply (preset_addressing_injective bus_good (fun _ _ => eq_refl)
           session_20x4 19 3 0 0 [] eq_refl
           (or_intror (conj eq_refl eq_refl))); repeat split; discriminate.
Defined.

(** ** Text output *)

Lemma c_bytes_length (str : string) : List.length (c_bytes str) = strlen str.
Proof.
  induction str as [| c str IH]; [reflexivity |].
  cbn [c_bytes strlen]. destruct (char_code c =? 0); [reflexivity |].
  cbn [List.length]. now rewrite IH.
Qed.

Lemma c_bytes_nth (str : string) :
  forall i, (i < strlen str)%nat ->
            nth i (c_bytes str) 0 = char_code (char_at str i) /\
            char_code (char_at str i) <> 0.
Proof.
  induction str as [| c str IH]; intros i Hi; [cbn in Hi; lia |].
  cbn [c_bytes strlen] in *. destruct (char_code c =? 0) eqn:Ec; [lia |].
  destruct i as [| i]; cbn [nth char_at].
  - split; [reflexivity | now apply Z.eqb_neq].
  - apply IH. lia.
Qed.

Lemma strlen_prefix (k : nat) :
  forall str, strlen (string_prefix k str) = Nat.min k (strlen str).
Proof.
  induction k as [| k IH]; intros str; [reflexivity |].
  destruct str as [| c str]; [reflexivity |].
  cbn [string_prefix strlen]. destruct (char_code c =? 0); [reflexivity |].
  rewrite IH. reflexivity.
Qed.

Lemma char_at_prefix (k : nat) :
  forall str j, (j < k)%nat -> char_at (string_prefix k str) j = char_at str j.
Proof.
  induction k as [| k IH]; intros str j Hj; [lia |].
  destruct str as [| c str]; [reflexivity |].
  destruct j as [| j]; cbn [string_prefix char_at]; [reflexivity |].
  apply IH. lia.
Qed.

(** X9. On a bus that accepts every write, [i2clcd_puts] succeeds and
    writes one data frame per character of the C string, in order, up to
    but not including the first NUL; an empty string puts nothing on the
    bus.  No address command is sent between the characters. *)
Theorem puts_writes_c_string
        (bus_write : history -> Z -> bool) (Hbus : reliable bus_write)
        (ctx : i2clcd_ctx) (str : string) (h : history) :
  i2clcd_puts bus_write (Some ctx) (Some str) h
    = Some ((I2CLCD_OK, Some ctx),
            h ++ flat_map (byte_frame true (backlight ctx)) (c_bytes str)) /\
  List.length (c_bytes str) = strlen str /\
  (forall i, (i < strlen str)%nat ->
     nth i (c_bytes str) 0 = char_code (char_at str i) /\
     char_code (char_at str i) <> 0) /\
  (strlen str = 0%nat ->
   i2clcd_puts bus_write (Some ctx) (Some str) h
     = Some ((I2CLCD_OK, Some ctx), h)).
Proof.
  assert (Hrun : i2clcd_puts bus_write (Some ctx) (Some str) h
            = Some ((I2CLCD_OK, Some ctx),
                    h ++ flat_map (byte_frame true (backlight ctx))
                           (c_bytes str))).
  { rewrite puts_plays. unfold truncated.
    now rewrite (play_reliable bus_write _ Hbus). }
  split; [exact Hrun |]. split; [apply c_bytes_length |].
  split; [apply c_bytes_nth |].
  intros Hlen. rewrite Hrun.
  pose proof (c_bytes_length str) as Hl. rewrite Hlen in Hl.
  destruct (c_bytes str); [| discriminate]. cbn. now rewrite app_nil_r.
Qed.

Lemma puts_writes_c_string_witness :
  i2clcd_puts bus_good (Some session_16x2) (Some "Hi"%string) []
    = Some ((I2CLCD_OK, Some session_16x2),
            [] ++ flat_map (byte_frame true true) [72; 105]).
Proof.
  apply (puts_writes_c_string bus_good (fun _ _ => eq_refl) session_16x2
           "Hi"%string []).
Defined.

(** X10. [i2clcd_printf] never sends more than 127 characters: with a
    non-null format it behaves as [i2clcd_puts] on the first 127
    characters of the rendered text, on every bus, so that on a bus that
    accepts every write it sends exactly [min 127 (strlen rendered)] data
    frames and reports success even when the text was cut. *)
Theorem printf_truncates_at_127
        (bus_write : history -> Z -> bool) (ctx : i2clcd_ctx)
        (fmt rendered : string) (h : history) :
  i2clcd_printf bus_write (Some ctx) (Some fmt) rendered h
    = i2clcd_puts bus_write (Some ctx) (Some (string_prefix 127 rendered)) h /\
  List.length (c_bytes (string_prefix 127 rendered))
    = Nat.min 127 (strlen rendered) /\
  (forall i, (i < Nat.min 127 (strlen rendered))%nat ->
     nth i (c_bytes (string_prefix 127 rendered)) 0
       = char_code (char_at rendered i)) /\
  (reliable bus_write ->
   i2clcd_printf bus_write (Some ctx) (Some fmt) rendered h
     = Some ((I2CLCD_OK, Some ctx),
             h ++ flat_map (byte_frame true (backlight ctx))
                    (c_bytes (string_prefix 127 rendered)))).
Proof.
  split; [reflexivity |].
  split; [now rewrite c_bytes_length, strlen_prefix |].
  split.
  - intros i Hi.
    destruct (c_bytes_nth (string_prefix 127 rendered) i) as [E _];
      [rewrite strlen_prefix; exact Hi |].
    rewrite E, char_at_prefix by lia. reflexivity.
  - intros Hbus. unfold i2clcd_printf. rewrite puts_plays. unfold truncated.
    now rewrite (play_reliable bus_write _ Hbus).
Qed.

Lemma printf_truncates_at_127_witness :
  i2clcd_printf bus_good (Some session_16x2) (Some "%s"%string) "ok"%string []
    = Some ((I2CLCD_OK, Some session_16x2),
            [] ++ flat_map (byte_frame true true)
                    (c_bytes (string_prefix 127 "ok"%string))).
Proof.
  destruct (printf_truncates_at_127 bus_good session_16x2 "%s"%string
              "ok"%string []) as (_ & _ & _ & H).
  apply H. intros h b. reflexivity.
Defined.

(** ** Whole lines *)

Lemma set_line_loop_ext (bus_write : history -> Z -> bool) (ctx : i2clcd_ctx)
      (text text' : string) (len len' n : nat) :
  forall i,
    (forall j, (i <= j < i + n)%nat ->
       (if (j <? len)%nat then char_at text j else " "%char)
       = (if (j <? len')%nat then char_at text' j else " "%char)) ->
    forall h, set_line_loop bus_write ctx text len i n h
              = set_line_loop bus_write ctx text' len' i n h.
Proof.
  induction n as [| n IH]; intros i Hext h; [reflexivity |].
  cbn [set_line_loop]. rewrite (Hext i) by lia.
  unfold bind. destruct (i2clcd_data bus_write ctx _ h) as [[r h1] |];
    [| reflexivity].
  destruct (r <? 0); [reflexivity |]. apply IH.
  intros j Hj. apply Hext. lia.
Qed.

Lemma set_line_loop_blank (bus_write : history -> Z -> bool)
      (ctx : i2clcd_ctx) (text : string) (n : nat) :
  forall i h, set_line_loop bus_write ctx text 0 i n h
              = clear_line_loop bus_write ctx n h.
Proof.
  induction n as [| n IH]; intros i h; [reflexivity |].
  cbn [set_line_loop clear_line_loop Nat.ltb Nat.leb].
  unfold bind. destruct (i2clcd_data bus_write ctx _ h) as [[r h1] |];
    [| reflexivity].
  destruct (r <? 0); [reflexivity | apply IH].
Qed.

(** X11. Clearing a line is setting it to the empty text: on every bus
    and for every handle and line, [i2clcd_set_line] with a text of length
    0 behaves exactly as [i2clcd_clear_line]. *)
Theorem set_line_empty_is_clear_line
        (bus_write : history -> Z -> bool) (handle : option i2clcd_ctx)
        (line : Z) (text : string) (h : history)
        (Hempty : strlen text = 0%nat) :
  i2clcd_set_line bus_write handle line (Some text) h
    = i2clcd_clear_line bus_write handle line h.
Proof.
  destruct handle as [ctx |]; [| reflexivity].
  unfold i2clcd_set_line, i2clcd_clear_line.
  destruct (line >=? rows ctx); [reflexivity |].
  unfold bind at 1 3.
  destruct (i2clcd_set_cursor bus_write (Some ctx) 0 line h)
    as [[[e hd] h1] |]; [| reflexivity].
  destruct (negb (err_is_ok e)); [reflexivity |].
  cbv zeta. rewrite Hempty. unfold bind.
  now rewrite set_line_loop_blank.
Qed.

Lemma set_line_empty_is_clear_line_witness :
  i2clcd_set_line bus_good (Some session_16x2) 1 (Some ""%string) []
    = i2clcd_clear_line bus_good (Some session_16x2) 1 [].
Proof.
  apply (set_line_empty_is_clear_line bus_good (Some session_16x2) 1
           ""%string [] eq_refl).
Defined.

(** X12. [i2clcd_set_line] ignores what does not fit: on every bus, a
    text and its first [columns] characters give the same call, event for
    event and result for result. *)
Theorem set_line_ignores_overflow
        (bus_write : history -> Z -> bool) (ctx : i2clcd_ctx)
        (line : Z) (text : string) (h : history) :
  i2clcd_set_line bus_write (Some ctx) line (Some text) h
    = i2clcd_set_line bus_write (Some ctx) line
        (Some (string_prefix (Z.to_nat (cols ctx)) text)) h.
Proof.
  unfold i2clcd_set_line.
  destruct (line >=? rows ctx); [reflexivity |].
  unfold bind at 1 3.
  destruct (i2clcd_set_cursor bus_write (Some ctx) 0 line h)
    as [[[e hd] h1] |]; [| reflexivity].
  destruct (negb (err_is_ok e)); [reflexivity |].
  cbv zeta. unfold bind.
  rewrite (set_line_loop_ext bus_write ctx text
             (string_prefix (Z.to_nat (cols ctx)) text)
             (strlen text)
             (strlen (string_prefix (Z.to_nat (cols ctx)) text))
             (Z.to_nat (cols ctx)) 0); [reflexivity |].
  intros j Hj. rewrite strlen_prefix, char_at_prefix by lia.
  destruct (Nat.ltb_spec j (strlen text)) as [Hlt | Hge].
  - replace (j <? Nat.min (Z.to_nat (cols ctx)) (strlen text))%nat with true
      by (symmetry; apply Nat.ltb_lt; lia).
    reflexivity.
  - replace (j <? Nat.min (Z.to_nat (cols ctx)) (strlen text))%nat with false
      by (symmetry; apply Nat.ltb_ge; lia).
    reflexivity.
Qed.



(** ** What an operation may change in the session *)

Lemma toggle_frame (ctx : i2clcd_ctx) (k : Z) (on : bool) :
  0 <= k < 8 ->
  only_bit_changed k on ctx (toggle_flag ctx (2 ^ k) on) /\
  0 <= display_ctrl (toggle_flag ctx (2 ^ k) on) < 256.
Proof.
  intros Hk. destruct (toggle_flag_spec ctx k on Hk) as (H1 & H2 & H3 & H4).
  repeat split; assumption || apply H3.
Qed.

Lemma run_frame (bus_write : history -> Z -> bool) (c : call)
      (ctx : i2clcd_ctx) :
  ensures (run bus_write c (Some ctx))
          (fun res => exists ctx', snd res = Some ctx' /\ frame_of c ctx ctx').
Proof.
  destruct c; cbn [run frame_of];
    unfold i2clcd_clear, i2clcd_clear_line, i2clcd_home, i2clcd_display,
      i2clcd_set_cursor, i2clcd_cursor, i2clcd_blink, i2clcd_putc,
      i2clcd_printf, i2clcd_puts, i2clcd_set_line, i2clcd_backlight,
      i2clcd_create_char, send_display_ctrl;
    ensures_go; cbn [fst snd];
    try (eexists; split; reflexivity).
  all: eexists; (split; [reflexivity |]).
  all: first [ apply (toggle_frame ctx 2); lia
             | apply (toggle_frame ctx 1); lia
             | apply (toggle_frame ctx 0); lia ].
Qed.

Lemma below_8_of_bits (w : Z) :
  (forall i, 3 <= i -> Z.testbit w i = false) -> 0 <= w < 8.
Proof.
  intros H.
  assert (E : w = w mod 2 ^ 3).
  { apply Z.bits_inj'. intros n Hn.
    rewrite Z.testbit_mod_pow2 by lia.
    destruct (Z.ltb_spec n 3) as [Hlt | Hge]; cbn [andb]; [reflexivity |].
    now apply H. }
  rewrite E. apply Z.mod_pos_bound. reflexivity.
Qed.

Lemma only_bit_changed_fixed (k : Z) (on : bool) (ctx ctx' : i2clcd_ctx) :
  0 <= k < 3 -> only_bit_changed k on ctx ctx' ->
  0 <= display_ctrl ctx' < 256 -> session_fixed ctx ctx'.
Proof.
  intros Hk (_ & Hothers & Hrest) Hbyte.
  assert (Hsmall : 0 <= display_ctrl ctx < 8 -> 0 <= display_ctrl ctx' < 8).
  { intros Hsmall. apply below_8_of_bits. intros i Hi.
    destruct (Z.lt_ge_cases i 8) as [Hlt | Hge].
    - rewrite Hothers by lia. apply (small_high_bits _ 3); [| lia].
      change (2 ^ 3) with 8. lia.
    - apply (small_high_bits _ 8); [| lia]. change (2 ^ 8) with 256. lia. }
  unfold session_fixed. rewrite Hrest at 1 2 3 4 5 6. cbn.
  repeat split; try reflexivity; apply Hsmall; assumption.
Qed.

Lemma session_fixed_refl ctx : session_fixed ctx ctx.
Proof. unfold session_fixed. tauto. Qed.

Lemma session_fixed_trans ctx1 ctx2 ctx3 :
  session_fixed ctx1 ctx2 -> session_fixed ctx2 ctx3 ->
  session_fixed ctx1 ctx3.
Proof.
  unfold session_fixed. intros (A1 & A2 & A3 & A4 & A5 & A6 & A7)
                               (B1 & B2 & B3 & B4 & B5 & B6 & B7).
  repeat split; try congruence; apply B7, A7; assumption.
Qed.

Lemma frame_fixed (c : call) (ctx ctx' : i2clcd_ctx) :
  frame_of c ctx ctx' -> session_fixed ctx ctx'.
Proof.
  destruct c; cbn [frame_of]; intros H;
    try (subst ctx'; apply session_fixed_refl).
  - destruct H as [Hb Hr]. now apply (only_bit_changed_fixed 2 on).
  - destruct H as [Hb Hr]. now apply (only_bit_changed_fixed 1 visible).
  - destruct H as [Hb Hr]. now apply (only_bit_changed_fixed 0 blink).
  - subst ctx'. unfold session_fixed. cbn. tauto.
Qed.

Lemma run_all_fixed (bus_write : history -> Z -> bool) (cs : list call) :
  forall ctx,
    ensures (run_all bus_write cs (Some ctx))
            (fun hd => exists ctx', hd = Some ctx' /\ session_fixed ctx ctx').
Proof.
  induction cs as [| c cs IH]; intros ctx.
  - apply ensures_ret. exists ctx. split; [reflexivity |].
    apply session_fixed_refl.
  - cbn [run_all]. intros h. unfold bind.
    pose proof (run_frame bus_write c ctx h) as Hc.
    destruct (run bus_write c (Some ctx) h) as [[[e hd] h1] |]; [| exact I].
    destruct Hc as (ctx1 & Hhd & Hframe). cbn [snd] in Hhd. subst hd.
    pose proof (IH ctx1 h1) as Hrest.
    destruct (run_all bus_write cs (Some ctx1) h1) as [[hd2 h2] |]; [| exact I].
    destruct Hrest as (ctx2 & -> & Hfix). exists ctx2.
    split; [reflexivity |].
    eapply session_fixed_trans; [apply (frame_fixed c); exact Hframe | exact Hfix].
Qed.

(** X14. On every bus, whether it succeeds or fails, a public operation
    changes at most its own part of the session: [i2clcd_display],
    [i2clcd_cursor] and [i2clcd_blink] change bit 2, 1 and 0 of the
    display-control flags and nothing else, [i2clcd_backlight] changes the
    backlight flag and nothing else, and every other operation leaves the
    session exactly as it was. *)
Theorem operations_change_only_their_flag
        (bus_write : history -> Z -> bool) (c : call) (ctx : i2clcd_ctx)
        (h : history) :
  match run bus_write c (Some ctx) h with
  | Some ((_, hd), _) => exists ctx', hd = Some ctx' /\ frame_of c ctx ctx'
  | None => True
  end.
Proof.
  pose proof (run_frame bus_write c ctx h) as H.
  destruct (run bus_write c (Some ctx) h) as [[[e hd] h'] |]; [| exact I].
  exact H.
Qed.

(** X15. A session keeps what [i2clcd_open] gave it: after any sequence
    of public operations, on any bus, the descriptor, the I2C address, the
    dimensions reported by [i2clcd_get_size] and the entry mode (increment,
    no shift) are those stored at open time, and the recorded
    display-control flags never hold anything but the three flag bits. *)
Theorem session_keeps_open_state
        (bus_write : history -> Z -> bool)
        (sys_calloc : bool) (sys_open : string -> Z) (sys_ioctl : Z -> Z -> Z)
        (cfg : i2clcd_config_t) (handle : bool) (ctx : i2clcd_ctx)
        (cs : list call) (h : history)
        (Hopen : i2clcd_open sys_calloc sys_open sys_ioctl (Some cfg) handle
                 = (I2CLCD_OK, Some ctx)) :
  match run_all bus_write cs (Some ctx) h with
  | Some (Some ctx', _) =>
    fd ctx' = sys_open (cfg_i2c_device cfg) /\
    i2c_addr ctx' = cfg_i2c_addr cfg /\
    entry_mode ctx' = HD44780.ENTRY_INC /\
    0 <= display_ctrl ctx' < 8 /\
    i2clcd_get_size (Some ctx') true true
      = i2clcd_get_size (Some ctx) true true
  | Some (None, _) => False
  | None => True
  end.
Proof.
  destruct (i2clcd_open_ok_inv _ _ _ _ _ _ Hopen)
    as (cfg' & c & r & [= <-] & _ & Hctx & _).
  pose proof (run_all_fixed bus_write cs ctx h) as H.
  destruct (run_all bus_write cs (Some ctx) h) as [[[ctx' |] h'] |];
    [| destruct H as (? & [=] & _) | exact I].
  destruct H as (ctx2 & [= <-] & (F1 & F2 & F3 & F4 & F5 & F6 & F7)).
  rewrite F1, F2, F5. unfold i2clcd_get_size. rewrite F3, F4.
  subst ctx. cbn in *. repeat split; try reflexivity; apply F7; lia.
Qed.

Lemma session_keeps_open_state_witness :
  match run_all bus_dead [Blink true; Display false; SetLine 0 None]
                (Some session_16x2) [] with
  | Some (Some ctx', _) =>
    fd ctx' = open_fd3 (cfg_i2c_device config_16x2) /\
    i2c_addr ctx' = cfg_i2c_addr config_16x2 /\
    entry_mode ctx' = HD44780.ENTRY_INC /\
    0 <= display_ctrl ctx' < 8 /\
    i2clcd_get_size (Some ctx') true true
      = i2clcd_get_size (Some session_16x2) true true
  | Some (None, _) => False
  | None => True
  end.
Proof.
  apply (session_keeps_open_state bus_dead true open_fd3 ioctl_ok config_16x2
           true session_16x2 [Blink true; Display false; SetLine 0 None] []
           eq_refl).
Defined.

(** X16. The backlight flag reads back as set: on every bus
    [i2clcd_backlight] returns success or the write-failed error, and in
    both cases [i2clcd_backlight_get] on the session it leaves returns the
    value just requested; the value is still returned after any further
    operation other than [i2clcd_backlight]. *)
Theorem backlight_reads_back
        (bus_write : history -> Z -> bool) (ctx : i2clcd_ctx) (on : bool)
        (h : history) :
  exists e ctx' h',
    i2clcd_backlight bus_write (Some ctx) on h = Some ((e, Some ctx'), h') /\
    (e = I2CLCD_OK \/ e = I2CLCD_ERR_WRITE) /\
    i2clcd_backlight_get (Some ctx') true = (I2CLCD_OK, Some on) /\
    (forall c h2,
       (forall on', c <> Backlight on') ->
       match run bus_write c (Some ctx') h2 with
       | Some ((_, hd), _) =>
         i2clcd_backlight_get hd true = (I2CLCD_OK, Some on)
       | None => True
       end).
Proof.
  exists (if bus_write h (if on then PCF8574.PIN_BL else 0)
          then I2CLCD_OK else I2CLCD_ERR_WRITE),
    (set_backlight ctx on), (h ++ [EvWrite (if on then PCF8574.PIN_BL else 0)]).
  split; [| split; [| split]].
  - unfold i2clcd_backlight, bind, i2clcd_i2c_write_byte.
    now destruct (bus_write h _).
  - destruct (bus_write h _); tauto.
  - reflexivity.
  - intros c h2 Hc.
    pose proof (run_frame bus_write c (set_backlight ctx on) h2) as H.
    destruct (run bus_write c (Some (set_backlight ctx on)) h2)
      as [[[e hd] h'] |]; [| exact I].
    destruct H as (ctx2 & Hhd & Hframe). cbn [snd] in Hhd. subst hd.
    unfold i2clcd_backlight_get. cbn [negb]. f_equal. f_equal.
    destruct c; cbn [frame_of] in Hframe;
      match type of Hframe with
      | _ /\ _ => destruct Hframe as [(_ & _ & E) _]; rewrite E; reflexivity
      | _ = _ => first [ subst ctx2; reflexivity
                       | exfalso; now apply (Hc on0) ]
      end.
Qed.

(** ** Delays *)

(** X17. For every [unsigned int] number of microseconds,
    [i2clcd_delay_us] hands [nanosleep] a normalised time: the nanosecond
    field is below one second, its computation does not wrap, and seconds
    and nanoseconds together are exactly the requested time. *)
Theorem delay_timespec_exact (us : Z) (Hus : 0 <= us < 4294967296) :
  let '(sec, nsec) := delay_timespec us in
  0 <= sec <= 4294 /\
  0 <= nsec < 1000000000 /\
  nsec = (us mod 1000000) * 1000 /\
  sec * 1000000000 + nsec = us * 1000.
Proof.
  unfold delay_timespec, u32.
  assert (Hm : 0 <= us mod 1000000 < 1000000)
    by (apply Z.mod_pos_bound; reflexivity).
  rewrite (Z.mod_small ((us mod 1000000) * 1000)) by lia.
  pose proof (Z.div_mod us 1000000 ltac:(lia)) as Hdiv.
  assert (0 <= us / 1000000 <= 4294).
  { split; [apply Z.div_pos; lia |].
    apply Z.lt_succ_r. apply Z.div_lt_upper_bound; lia. }
  repeat split; lia.
Qed.

Lemma delay_timespec_exact_witness :
  let '(sec, nsec) := delay_timespec 1500000 in
  0 <= sec <= 4294 /\
  0 <= nsec < 1000000000 /\
  nsec = (1500000 mod 1000000) * 1000 /\
  sec * 1000000000 + nsec = 1500000 * 1000.
Proof.
  apply (delay_timespec_exact 1500000). split; [discriminate | reflexivity].
Defined.

(** X18. [i2clcd_delay_ms] multiplies in [unsigned int]: it waits
    [ms * 1000] microseconds exactly when [ms] is at most 4294967, and the
    product modulo 2^32 beyond that, which is a shorter wait than asked
    for. *)
Theorem delay_ms_wraps (ms : Z) (h : history) (Hms : 0 <= ms < 4294967296) :
  exists us,
    i2clcd_delay_ms ms h = Some (tt, h ++ [EvDelay us]) /\
    us = (ms * 1000) mod 4294967296 /\
    (ms <= 4294967 -> us = ms * 1000) /\
    (4294967 < ms -> us < ms * 1000).
Proof.
  exists ((ms * 1000) mod 4294967296).
  split; [reflexivity |]. split; [reflexivity |]. split.
  - intros Hsmall. apply Z.mod_small. lia.
  - intros Hbig.
    pose proof (Z.mod_pos_bound (ms * 1000) 4294967296 ltac:(lia)). lia.
Qed.

Lemma delay_ms_wraps_witness :
  exists us,
    i2clcd_delay_ms 4294968 [] = Some (tt, [] ++ [EvDelay us]) /\
    us = (4294968 * 1000) mod 4294967296.
Proof.
  destruct (delay_ms_wraps 4294968 []) as (us & H1 & H2 & _);
    [split; [discriminate | reflexivity] |].
  exists us. split; assumption.
Defined.

(** ** Memory and descriptors *)

(** X19. [i2clcd_open] leaks nothing: when it fails, on whichever path,
    every block it allocated is freed and every descriptor it opened is
    closed; when it succeeds it holds exactly one block and the descriptor
    stored in the session, and [i2clcd_deinit] on that session releases
    both.  [i2clcd_deinit] on a null handle does nothing. *)
Theorem open_deinit_balanced
        (sys_calloc : bool) (sys_open : string -> Z) (sys_ioctl : Z -> Z -> Z)
        (config : option i2clcd_config_t) (handle : bool) :
  (fst (i2clcd_open sys_calloc sys_open sys_ioctl config handle) <> I2CLCD_OK
   -> held (i2clcd_open_sys sys_calloc sys_open sys_ioctl config handle) 0 []
      = Some (0%nat, [])) /\
  (forall ctx,
     i2clcd_open sys_calloc sys_open sys_ioctl config handle
       = (I2CLCD_OK, Some ctx) ->
     held (i2clcd_open_sys sys_calloc sys_open sys_ioctl config handle) 0 []
       = Some (1%nat, [fd ctx]) /\
     held (i2clcd_open_sys sys_calloc sys_open sys_ioctl config handle
           ++ i2clcd_deinit (Some ctx)) 0 []
       = Some (0%nat, [])) /\
  i2clcd_deinit None = [].
Proof.
  split; [| split; [| reflexivity]].
  - unfold i2clcd_open, i2clcd_open_sys. intros H.
    destruct config as [cfg |]; [| reflexivity].
    destruct handle; [| reflexivity].
    destruct sys_calloc; [| reflexivity]. cbn [negb] in *.
    destruct (cfg_size cfg =? I2CLCD_16X2);
      [| destruct (cfg_size cfg =? I2CLCD_20X4);
         [| destruct (cfg_size cfg =? I2CLCD_CUSTOM); [| reflexivity]]];
      cbn [orb held]; cbv zeta;
      destruct (sys_open (cfg_i2c_device cfg) <? 0) eqn:Eo;
      cbn [held]; rewrite ?Eo; try reflexivity;
      destruct (sys_ioctl _ _ <? 0); cbn [held close_fd];
      rewrite ?Eo, ?Z.eqb_refl; try reflexivity;
      cbn in H; congruence.
  - intros ctx Hopen.
    destruct (i2clcd_open_ok_inv _ _ _ _ _ _ Hopen)
      as (cfg & c & r & -> & -> & Hctx & Hdims).
    assert (Hfd : fd ctx = sys_open (cfg_i2c_device cfg))
      by (subst ctx; reflexivity).
    unfold i2clcd_open in Hopen. unfold i2clcd_open_sys, i2clcd_deinit.
    destruct sys_calloc; [| discriminate]. cbn [negb] in *.
    rewrite Hfd.
    destruct (sys_open (cfg_i2c_device cfg) <? 0) eqn:Eo;
      [repeat match type of Hopen with
              | context [if ?b then _ else _] => destruct b
              end; discriminate Hopen |].
    destruct (sys_ioctl (sys_open (cfg_i2c_device cfg)) (cfg_i2c_addr cfg)
              <? 0) eqn:Ei;
      [repeat match type of Hopen with
              | context [if ?b then _ else _] => destruct b
              end; discriminate Hopen |].
    replace (sys_open (cfg_i2c_device cfg) >=? 0) with true
      by (symmetry; apply geb_true; apply Z.ltb_ge in Eo; lia).
    replace ((cfg_size cfg =? I2CLCD_16X2) || (cfg_size cfg =? I2CLCD_20X4)
             || (cfg_size cfg =? I2CLCD_CUSTOM)) with true.
    + cbv zeta. cbn [app held]. rewrite Eo. cbn [held close_fd].
      rewrite Z.eqb_refl. split; reflexivity.
    + symmetry.
      destruct Hdims as [(E & _) | [(E & _) | (E & _)]]; rewrite E;
        reflexivity.
Qed.

Lemma open_deinit_balanced_witness :
  held (i2clcd_open_sys true open_fd3 (fun _ _ => -1) (Some config_16x2) true)
       0 [] = Some (0%nat, []) /\
  held (i2clcd_open_sys true open_fd3 ioctl_ok (Some config_16x2) true
        ++ i2clcd_deinit (Some session_16x2)) 0 [] = Some (0%nat, []).
Proof.
  split.
  - destruct (open_deinit_balanced true open_fd3 (fun _ _ => -1)
                (Some config_16x2) true) as (H & _).
    apply H. discriminate.
  - destruct (open_deinit_balanced true open_fd3 ioctl_ok
                (Some config_16x2) true) as (_ & H & _).
    apply (H session_16x2 eq_refl).
Defined.

(** ** The command-line tool *)

Lemma char_code_range (c : ascii) : 0 <= char_code c < 256.
Proof.
  unfold char_code. pose proof (N_ascii_bounded c) as H. lia.
Qed.

Lemma tolower_zero (x : Z) : 0 <= x -> (tolower x = 0 <-> x = 0).
Proof.
  intros Hx. unfold tolower.
  destruct ((65 <=? x) && (x <=? 90)) eqn:E; [| tauto].
  apply andb_true_iff in E. destruct E as [E1 E2].
  apply Z.leb_le in E1, E2. lia.
Qed.

Lemma strcmp_eq_spec (a : string) :
  forall b, strcmp_eq a b = true <-> c_bytes a = c_bytes b.
Proof.
  induction a as [| c a IH]; intros [| d b]; cbn [strcmp_eq c_bytes].
  - tauto.
  - rewrite Z.eqb_sym. destruct (char_code d =? 0); split; congruence.
  - destruct (char_code c =? 0); split; congruence.
  - destruct (char_code c =? char_code d) eqn:Ecd.
    + apply Z.eqb_eq in Ecd. rewrite <- Ecd.
      destruct (char_code c =? 0); [tauto |].
      rewrite IH. split; [congruence | now intros [= ->]].
    + apply Z.eqb_neq in Ecd.
      destruct (char_code c =? 0) eqn:Ec, (char_code d =? 0) eqn:Ed;
        try apply Z.eqb_eq in Ec; try apply Z.eqb_eq in Ed;
        split; try discriminate; try congruence.
Qed.

Lemma strcasecmp_eq_spec (a : string) :
  forall b, strcasecmp_eq a b = true
            <-> map tolower (c_bytes a) = map tolower (c_bytes b).
Proof.
  induction a as [| c a IH]; intros [| d b]; cbn [strcasecmp_eq c_bytes].
  - tauto.
  - change (tolower 0) with 0.
    pose proof (tolower_zero (char_code d) (proj1 (char_code_range d))) as Hz.
    destruct (char_code d =? 0) eqn:Ed.
    + apply Z.eqb_eq in Ed. cbn [map]. rewrite Z.eqb_eq. intuition congruence.
    + apply Z.eqb_neq in Ed. cbn [map]. rewrite Z.eqb_eq. split.
      * intros E. symmetry in E. tauto.
      * discriminate.
  - change (tolower 0) with 0.
    pose proof (tolower_zero (char_code c) (proj1 (char_code_range c))) as Hz.
    destruct (char_code c =? 0) eqn:Ec.
    + apply Z.eqb_eq in Ec. cbn [map]. rewrite Z.eqb_eq. intuition congruence.
    + apply Z.eqb_neq in Ec. cbn [map]. rewrite Z.eqb_eq. split.
      * tauto.
      * discriminate.
  - pose proof (tolower_zero (char_code c) (proj1 (char_code_range c))) as Hc.
    pose proof (tolower_zero (char_code d) (proj1 (char_code_range d))) as Hd.
    destruct (tolower (char_code c) =? tolower (char_code d)) eqn:Ecd.
    + apply Z.eqb_eq in Ecd.
      destruct (char_code c =? 0) eqn:Ec.
      * apply Z.eqb_eq in Ec.
        assert (Ed : char_code d = 0) by (apply Hd; rewrite <- Ecd; tauto).
        rewrite Ed. cbn. tauto.
      * apply Z.eqb_neq in Ec.
        assert (Ed : char_code d <> 0)
          by (intros E; apply Ec, Hc; rewrite Ecd; tauto).
        apply Z.eqb_neq in Ed. rewrite Ed. cbn [map]. rewrite IH.
        split; [congruence | now intros [= _ ->]].
    + apply Z.eqb_neq in Ecd.
      destruct (char_code c =? 0) eqn:Ec, (char_code d =? 0) eqn:Ed;
        try apply Z.eqb_eq in Ec; try apply Z.eqb_eq in Ed;
        cbn [map]; split; try discriminate; try congruence.
      all: intros [= E _]; congruence.
Qed.

(** X20. [parse_size] accepts exactly the spellings 16x2, 1602, 20x4 and
    2004, compared as C strings, and yields one of the two presets, never
    [I2CLCD_CUSTOM]; so a session opened with a configuration whose size
    was taken from [parse_size] has 16 columns and 2 rows or 20 columns
    and 4 rows, whatever its own column and row fields hold. *)
Theorem parse_size_presets
        (sys_calloc : bool) (sys_open : string -> Z) (sys_ioctl : Z -> Z -> Z)
        (str : string) :
  (parse_size str = Some I2CLCD_16X2 <->
   c_bytes str = [49; 54; 120; 50] \/ c_bytes str = [49; 54; 48; 50]) /\
  (parse_size str = Some I2CLCD_20X4 <->
   c_bytes str = [50; 48; 120; 52] \/ c_bytes str = [50; 48; 48; 52]) /\
  (forall v, parse_size str = Some v ->
     (v = I2CLCD_16X2 \/ v = I2CLCD_20X4) /\
     forall cfg ctx handle,
       i2clcd_open sys_calloc sys_open sys_ioctl
                   (Some (with_size cfg v)) handle
         = (I2CLCD_OK, Some ctx) ->
       (cols ctx = 16 /\ rows ctx = 2) \/ (cols ctx = 20 /\ rows ctx = 4)).
Proof.
  pose proof (strcmp_eq_spec str "16x2") as E1.
  pose proof (strcmp_eq_spec str "1602") as E2.
  pose proof (strcmp_eq_spec str "20x4") as E3.
  pose proof (strcmp_eq_spec str "2004") as E4.
  change (c_bytes "16x2") with [49; 54; 120; 50] in E1.
  change (c_bytes "1602") with [49; 54; 48; 50] in E2.
  change (c_bytes "20x4") with [50; 48; 120; 52] in E3.
  change (c_bytes "2004") with [50; 48; 48; 52] in E4.
  assert (H16 : strcmp_eq str "16x2" || strcmp_eq str "1602" = true <->
                c_bytes str = [49; 54; 120; 50] \/
                c_bytes str = [49; 54; 48; 50])
    by (rewrite orb_true_iff, E1, E2; tauto).
  assert (H20 : strcmp_eq str "20x4" || strcmp_eq str "2004" = true <->
                c_bytes str = [50; 48; 120; 52] \/
                c_bytes str = [50; 48; 48; 52])
    by (rewrite orb_true_iff, E3, E4; tauto).
  unfold parse_size, I2CLCD_16X2, I2CLCD_20X4.
  destruct (strcmp_eq str "16x2" || strcmp_eq str "1602") eqn:B16;
    [| destruct (strcmp_eq str "20x4" || strcmp_eq str "2004") eqn:B20].
  - assert (P16 := proj1 H16 eq_refl).
    split; [tauto |]. split.
    + split; [discriminate |].
      intros [E | E]; destruct P16 as [P | P]; rewrite P in E; discriminate E.
    + intros v [= <-]. split; [tauto |].
      intros cfg0 ctx handle Hopen. apply i2clcd_open_ok_inv in Hopen.
      destruct Hopen as (cfg & c & r & [= <-] & _ & -> & Hd).
      cbn in Hd |- *. unfold I2CLCD_16X2, I2CLCD_20X4, I2CLCD_CUSTOM in Hd.
      destruct Hd as [(_ & -> & ->) | [(E & _) | (E & _)]];
        [tauto | discriminate E | discriminate E].
  - assert (P20 := proj1 H20 eq_refl).
    split; [| split].
    + split; [discriminate |]. intros P. apply H16 in P. discriminate P.
    + tauto.
    + intros v [= <-]. split; [tauto |].
      intros cfg0 ctx handle Hopen. apply i2clcd_open_ok_inv in Hopen.
      destruct Hopen as (cfg & c & r & [= <-] & _ & -> & Hd).
      cbn in Hd |- *. unfold I2CLCD_16X2, I2CLCD_20X4, I2CLCD_CUSTOM in Hd.
      destruct Hd as [(E & _) | [(_ & -> & ->) | (E & _)]];
        [discriminate E | tauto | discriminate E].
  - split; [| split].
    + split; [discriminate |]. intros P. apply H16 in P. discriminate P.
    + split; [discriminate |]. intros P. apply H20 in P. discriminate P.
    + intros v H. discriminate H.
Qed.

Lemma parse_size_presets_witness :
  (I2CLCD_16X2 = I2CLCD_16X2 \/ I2CLCD_16X2 = I2CLCD_20X4) /\
  forall cfg ctx handle,
    i2clcd_open true open_fd3 ioctl_ok
                (Some (with_size cfg I2CLCD_16X2)) handle
      = (I2CLCD_OK, Some ctx) ->
    (cols ctx = 16 /\ rows ctx = 2) \/ (cols ctx = 20 /\ rows ctx = 4).
Proof.
  destruct (parse_size_presets true open_fd3 ioctl_ok "1602"%string)
    as (_ & _ & H).
  apply (H I2CLCD_16X2 eq_refl).
Defined.

(** X21. [parse_bool] does not look at letter case and accepts exactly
    eight words: it yields true for on, yes, 1 and true, false for off,
    no, 0 and false, in any mix of upper and lower case, and fails on
    every other C string. *)
Theorem parse_bool_words (str : string) :
  let low := map tolower (c_bytes str) in
  (parse_bool str = Some true <->
   low = [111; 110] \/ low = [121; 101; 115] \/ low = [49] \/
   low = [116; 114; 117; 101]) /\
  (parse_bool str = Some false <->
   low = [111; 102; 102] \/ low = [110; 111] \/ low = [48] \/
   low = [102; 97; 108; 115; 101]) /\
  (forall str',
     map tolower (c_bytes str') = low -> parse_bool str' = parse_bool str).
Proof.
  intros low.
  assert (Hword : forall s w,
            strcasecmp_eq s w = true
            <-> map tolower (c_bytes s) = map tolower (c_bytes w))
    by (intros s w; apply strcasecmp_eq_spec).
  assert (Hsame : forall str' w,
            map tolower (c_bytes str') = low ->
            strcasecmp_eq str' w = strcasecmp_eq str w).
  { intros str' w E.
    destruct (strcasecmp_eq str w) eqn:B.
    - apply Hword. rewrite E. now apply Hword.
    - destruct (strcasecmp_eq str' w) eqn:B'; [| reflexivity].
      apply Hword in B'. rewrite E in B'. apply Hword in B'. congruence. }
  assert (Ht : strcasecmp_eq str "on" || strcasecmp_eq str "yes" ||
               strcasecmp_eq str "1" || strcasecmp_eq str "true" = true <->
               low = [111; 110] \/ low = [121; 101; 115] \/ low = [49] \/
               low = [116; 114; 117; 101])
    by (rewrite !orb_true_iff, !Hword; cbn; tauto).
  assert (Hf : strcasecmp_eq str "off" || strcasecmp_eq str "no" ||
               strcasecmp_eq str "0" || strcasecmp_eq str "false" = true <->
               low = [111; 102; 102] \/ low = [110; 111] \/ low = [48] \/
               low = [102; 97; 108; 115; 101])
    by (rewrite !orb_true_iff, !Hword; cbn; tauto).
  split; [| split].
  - unfold parse_bool.
    destruct (strcasecmp_eq str "on" || strcasecmp_eq str "yes" ||
              strcasecmp_eq str "1" || strcasecmp_eq str "true") eqn:Bt.
    + tauto.
    + split.
      * destruct (strcasecmp_eq str "off" || strcasecmp_eq str "no" ||
                  strcasecmp_eq str "0" || strcasecmp_eq str "false");
          intros H; discriminate H.
      * intros P. apply Ht in P. discriminate P.
  - unfold parse_bool.
    destruct (strcasecmp_eq str "on" || strcasecmp_eq str "yes" ||
              strcasecmp_eq str "1" || strcasecmp_eq str "true") eqn:Bt.
    + assert (Pt := proj1 Ht eq_refl). split; [intros H; discriminate H |].
      intros Pf.
      destruct Pt as [P | [P | [P | P]]], Pf as [Q | [Q | [Q | Q]]];
        rewrite P in Q; discriminate Q.
    + destruct (strcasecmp_eq str "off" || strcasecmp_eq str "no" ||
                strcasecmp_eq str "0" || strcasecmp_eq str "false") eqn:Bf.
      * tauto.
      * split; [intros H; discriminate H |].
        intros P. apply Hf in P. discriminate P.
  - intros str' E. unfold parse_bool. now rewrite !(Hsame str' _ E).
Qed.

Lemma parse_bool_words_witness :
  parse_bool "YES"%string = parse_bool "yes"%string.
Proof.
  destruct (parse_bool_words "yes"%string) as (_ & _ & H).
  apply H. reflexivity.
Defined.

(** ** Null handles, clear and home *)

(** X22. Every public operation called with a null handle returns the
    not-initialized error, whatever its other arguments, and puts nothing
    on the bus. *)
Theorem null_handle_not_initialized
        (bus_write : history -> Z -> bool) (c : call) (h : history) :
  run bus_write c None h = Some ((I2CLCD_ERR_NOT_INIT, None), h).
Proof. destruct c; reflexivity. Qed.

(** X23. On a bus that accepts every write, [i2clcd_clear] sends the
    command 0x01 and [i2clcd_home] the command 0x02, each as one frame with
    register select low, and each then waits the 1600 microsecond settle
    time before it returns success. *)
Theorem clear_and_home_settle
        (bus_write : history -> Z -> bool) (Hbus : reliable bus_write)
        (ctx : i2clcd_ctx) (h : history) :
  i2clcd_clear bus_write (Some ctx) h
    = Some ((I2CLCD_OK, Some ctx),
            h ++ byte_frame false (backlight ctx) 0x01 ++ [EvDelay 1600]) /\
  i2clcd_home bus_write (Some ctx) h
    = Some ((I2CLCD_OK, Some ctx),
            h ++ byte_frame false (backlight ctx) 0x02 ++ [EvDelay 1600]).
Proof.
  split.
  - unfold i2clcd_clear.
    erewrite bind_run by (apply command_ok; exact Hbus).
    cbn [Z.ltb Z.compare]. unfold bind, i2clcd_delay_us, emit, ret.
    now rewrite <- app_assoc.
  - unfold i2clcd_home.
    erewrite bind_run by (apply command_ok; exact Hbus).
    cbn [Z.ltb Z.compare]. unfold bind, i2clcd_delay_us, emit, ret.
    now rewrite <- app_assoc.
Qed.

Lemma clear_and_home_settle_witness :
  i2clcd_clear bus_good (Some session_16x2) []
    = Some ((I2CLCD_OK, Some session_16x2),
            [] ++ byte_frame false true 0x01 ++ [EvDelay 1600]).
Proof.
  apply (clear_and_home_settle bus_good (fun _ _ => eq_refl) session_16x2 []).
Defined.

(** ** Setters on a failing bus *)

Lemma truncated_setter_outcome (bus_write : history -> Z -> bool)
      (s h : history) (ctx' : i2clcd_ctx) :
  setter_outcome bus_write h s ctx'
    (truncated bus_write s I2CLCD_OK (Some ctx') h).
Proof.
  unfold truncated, setter_outcome.
  destruct (play_cases bus_write s h)
    as [[E Hacc] | (pre & b & post & Es & Hacc & Hb & E)]; rewrite E.
  - left. split; [exact Hacc | reflexivity].
  - right. exists pre, b, post. repeat split; assumption.
Qed.

Lemma toggle_setter_outcome (bus_write : history -> Z -> bool) (k : Z)
      (ctx : i2clcd_ctx) (on : bool) (h : history) :
  0 <= k < 8 ->
  exists ctx',
    only_bit_changed k on ctx ctx' /\
    setter_outcome bus_write h
      (byte_frame false (backlight ctx) (Z.lor 0x08 (display_ctrl ctx'))) ctx'
      (send_display_ctrl bus_write (toggle_flag ctx (2 ^ k) on) h).
Proof.
  intros Hk.
  destruct (toggle_flag_spec ctx k on Hk) as (Hbit & Hothers & Hrange & Hrest).
  exists (toggle_flag ctx (2 ^ k) on). split; [now repeat split |].
  rewrite send_display_ctrl_plays.
  rewrite display_ctrl_cmd_byte by exact Hrange.
  replace (backlight (toggle_flag ctx (2 ^ k) on)) with (backlight ctx)
    by (rewrite Hrest; reflexivity).
  apply truncated_setter_outcome.
Qed.

(** C3, amended. For [i2clcd_display], [i2clcd_cursor], [i2clcd_blink] and
    [i2clcd_backlight] on any bus and after any history: the requested
    value is recorded first (bit 2, 1 or 0 of the display-control flags, or
    the backlight flag), every other bit and field of the session being
    left as it was; then the register (command 0x08 or-ed with the recorded
    flags, as one frame) or the backlight word is sent.  If the bus accepts
    every write the whole frame is issued and the call succeeds; if the bus
    refuses any write the call stops at the first refused write and returns
    the write-failed error.  In both cases the session holds the requested
    value: a failed transmission does not restore the previous one. *)
Theorem flag_recorded_whatever_the_bus
        (bus_write : history -> Z -> bool) (ctx : i2clcd_ctx) (on : bool)
        (h : history) :
  (exists ctx',
     only_bit_changed 2 on ctx ctx' /\
     setter_outcome bus_write h
       (byte_frame false (backlight ctx) (Z.lor 0x08 (display_ctrl ctx')))
       ctx' (i2clcd_display bus_write (Some ctx) on h)) /\
  (exists ctx',
     only_bit_changed 1 on ctx ctx' /\
     setter_outcome bus_write h
       (byte_frame false (backlight ctx) (Z.lor 0x08 (display_ctrl ctx')))
       ctx' (i2clcd_cursor bus_write (Some ctx) on h)) /\
  (exists ctx',
     only_bit_changed 0 on ctx ctx' /\
     setter_outcome bus_write h
       (byte_frame false (backlight ctx) (Z.lor 0x08 (display_ctrl ctx')))
       ctx' (i2clcd_blink bus_write (Some ctx) on h)) /\
  (exists ctx',
     ctx' = set_backlight ctx on /\
     backlight ctx' = on /\ display_ctrl ctx' = display_ctrl ctx /\
     setter_outcome bus_write h [EvWrite (if on then 8 else 0)] ctx'
       (i2clcd_backlight bus_write (Some ctx) on h)).
Proof.
  split; [| split; [| split]].
  - apply (toggle_setter_outcome bus_write 2 ctx on h). lia.
  - apply (toggle_setter_outcome bus_write 1 ctx on h). lia.
  - apply (toggle_setter_outcome bus_write 0 ctx on h). lia.
  - exists (set_backlight ctx on). repeat split.
    replace (i2clcd_backlight bus_write (Some ctx) on h)
      with (truncated bus_write [EvWrite (if on then 8 else 0)] I2CLCD_OK
              (Some (set_backlight ctx on)) h).
    + apply truncated_setter_outcome.
    + unfold i2clcd_backlight, truncated.
      rewrite (bind_plays _ _ _ _ _ (i2c_write_byte_plays bus_write _ _)).
      change PCF8574.PIN_BL with 8.
      now destruct (play bus_write _ h) as [[|] h1].
Qed.
